(** * PyDAQFlex: the acquisition pipeline of [daqflex/devices.py]

    A shallow embedding of [MCCDevice] (command channel, scan configuration,
    synchronous bulk reader, one-shot read with its retry workaround,
    calibration cache, scaling, the FPGA step of [__init__], the buffer of
    the continuous mode) and the properties of its specification.

    Conventions.
    - Python exceptions are values of [exn]; a method is a function
      [session -> result A * session]: the session it leaves behind is the
      one at the point of the [raise], as in Python.
    - The USB device is the environment.  Control transfers are answered by
      two functions of the traffic so far ([ctrl_out], [ctrl_in]); the bulk
      IN endpoint is the list of the outcomes of its future reads, and a
      device that has nothing more to say times out.
    - Python [str] and byte buffers are [string] (characters 0..255);
      bulk packets are [list byte]. *)

From Stdlib Require Import ZArith QArith Floats String Ascii List Lia.
From Stdlib.Strings Require Import Byte.
From stdpp Require Import gmap strings list pretty.

Open Scope Z_scope.

(** ** Python values the module manipulates *)

(** The exceptions that can leave the modelled methods. *)
Inductive exn : Type :=
| IOError (msg : string)          (* raised by send_message *)
| USBError (errno : option Z)     (* usb.core.USBError *)
| UnicodeError                    (* .encode('ascii') / codecs.decode *)
| IndexError                      (* split('=')[1] on a reply without '=' *)
| ValueError                      (* float(), array.fromstring, slice step 0 *)
| ZeroDivisionError
| KeyError                        (* self.calib_data[key] *)
| RecursionLimit.                 (* CPython's recursion limit: fuel exhausted *)

Inductive result (A : Type) : Type :=
| Ok (a : A)
| Raise (e : exn).
Arguments Ok {A} a.
Arguments Raise {A} e.

(** Outcome of one USB transfer, as pyusb reports it. *)
Inductive usb_result (A : Type) : Type :=
| UsbOk (a : A)
| UsbErr (errno : option Z).
Arguments UsbOk {A} a.
Arguments UsbErr {A} errno.

(** [errno.ETIMEDOUT] on Linux. *)
Definition ETIMEDOUT : Z := 110.

(** *** Strings *)

Definition NUL : ascii := Ascii.zero.

Definition is_ascii_char (c : ascii) : bool := (nat_of_ascii c <? 128)%nat.

Fixpoint is_ascii (s : string) : bool :=
  match s with
  | EmptyString => true
  | String c s' => is_ascii_char c && is_ascii s'
  end.

(** [str.upper] on one character: only a..z change. *)
Definition upper_char (c : ascii) : ascii :=
  let n := nat_of_ascii c in
  if ((97 <=? n) && (n <=? 122))%nat then ascii_of_nat (n - 32) else c.

Fixpoint upper (s : string) : string :=
  match s with
  | EmptyString => EmptyString
  | String c s' => String (upper_char c) (upper s')
  end.

(** [s.encode('ascii')] and [codecs.decode(b, 'ascii')]: the identity on
    7-bit text, [UnicodeError] otherwise. *)
Definition ascii_codec (s : string) : option string :=
  if is_ascii s then Some s else None.

(** [s.rstrip(chr(0))]. *)
Fixpoint rstrip_nul (s : string) : string :=
  match s with
  | EmptyString => EmptyString
  | String c s' =>
      match rstrip_nul s' with
      | EmptyString => if Ascii.eqb c NUL then EmptyString else String c EmptyString
      | r => String c r
      end
  end.

(** [s.split('=')]: the pieces between the separators, never empty as a list. *)
Fixpoint split_eq (s : string) : list string :=
  match s with
  | EmptyString => [EmptyString]
  | String c s' =>
      if Ascii.eqb c "="%char then EmptyString :: split_eq s'
      else match split_eq s' with
           | [] => [String c EmptyString]
           | p :: ps => String c p :: ps
           end
  end.

(** ["%d" % z]. *)
Definition fmt_d (z : Z) : string := pretty z.

(** *** Numbers

    The arithmetic of [scale_and_calibrate_data] is written over the
    operations it uses; the carrier is binary64, which is what Python and
    numpy ([float], [float64]) compute with. *)
Class Arith (F : Type) : Type := {
  fadd : F -> F -> F;
  fsub : F -> F -> F;
  fmul : F -> F -> F;
  fdiv : F -> F -> F;
  of_int : Z -> F;       (* int -> float promotion *)
}.

Definition float_of_Z (z : Z) : float :=
  match z with
  | Z0 => PrimFloat.zero
  | Zpos _ => PrimFloat.of_uint63 (Uint63.of_Z z)
  | Zneg _ => PrimFloat.opp (PrimFloat.of_uint63 (Uint63.of_Z (- z)))
  end.

#[export] Instance Arith_float : Arith float := {|
  fadd := PrimFloat.add; fsub := PrimFloat.sub;
  fmul := PrimFloat.mul; fdiv := PrimFloat.div;
  of_int := float_of_Z |}.

(** A numpy array as [simple_read] sees it: the raw counts ([dtype=uint16])
    or, after scaling, floats. *)
Inductive ndarray (F : Type) : Type :=
| IntArray (l : list Z)
| FloatArray (l : list F).
Arguments IntArray {F} l.
Arguments FloatArray {F} l.

(** What [simple_read] returns: one array, or a dict from channel to array. *)
Inductive read_result (F : Type) : Type :=
| Single (a : ndarray F)
| Multi (d : gmap Z (ndarray F)).
Arguments Single {F} a.
Arguments Multi {F} d.

(** ** The device and the session *)

(** The device: how it answers control transfers, and the constants of its
    class and of its bulk IN endpoint. *)
Record device : Type := {
  (* OUT transfer 0x80: wire messages sent before, this message; the number
     of bytes the device accepted *)
  ctrl_out : list string -> string -> usb_result Z;
  (* IN transfer 0x80 of 64 bytes: wire messages sent so far; the reply *)
  ctrl_in : list string -> usb_result string;
  bulk_packet_size : Z;           (* self._bulk_packet_size *)
  max_counts : Z;                 (* cls.max_counts *)
}.

(** [new_conf] of [configure_read]:
    [(mode, vrange, lowchan, highchan, frequency, nsamples)]. *)
Definition conf_t : Type := (string * Z * Z * Z * Z * Z)%type.

(** Key of [self.calib_data]: [(chan, mode, vrange_code)]. *)
Definition calib_key : Type := (Z * string * string)%type.

(** The mutable part of an [MCCDevice] object, with the traffic on its wires. *)
Record session (F : Type) : Type := {
  sent : list string;                       (* OUT control messages, oldest first *)
  bulk_in : list (usb_result (list byte));  (* future reads of self._ep_in *)
  stderr : list string;                     (* lines printed to stderr *)
  calib_data : gmap calib_key (F * F);      (* self.calib_data *)
  read_recursion_depth : nat;               (* self.read_recursion_depth *)
  conf : option conf_t;                     (* self.conf, None at first *)
}.
Arguments sent {F} s.
Arguments bulk_in {F} s.
Arguments stderr {F} s.
Arguments calib_data {F} s.
Arguments read_recursion_depth {F} s.
Arguments conf {F} s.

Definition set_sent {F} (v : list string) (s : session F) : session F :=
  {| sent := v; bulk_in := bulk_in s; stderr := stderr s;
     calib_data := calib_data s;
     read_recursion_depth := read_recursion_depth s; conf := conf s |}.

Definition set_bulk_in {F} (v : list (usb_result (list byte))) (s : session F)
  : session F :=
  {| sent := sent s; bulk_in := v; stderr := stderr s;
     calib_data := calib_data s;
     read_recursion_depth := read_recursion_depth s; conf := conf s |}.

Definition set_stderr {F} (v : list string) (s : session F) : session F :=
  {| sent := sent s; bulk_in := bulk_in s; stderr := v;
     calib_data := calib_data s;
     read_recursion_depth := read_recursion_depth s; conf := conf s |}.

Definition set_calib_data {F} (v : gmap calib_key (F * F)) (s : session F)
  : session F :=
  {| sent := sent s; bulk_in := bulk_in s; stderr := stderr s;
     calib_data := v;
     read_recursion_depth := read_recursion_depth s; conf := conf s |}.

Definition set_read_recursion_depth {F} (v : nat) (s : session F) : session F :=
  {| sent := sent s; bulk_in := bulk_in s; stderr := stderr s;
     calib_data := calib_data s;
     read_recursion_depth := v; conf := conf s |}.

Definition set_conf {F} (v : option conf_t) (s : session F) : session F :=
  {| sent := sent s; bulk_in := bulk_in s; stderr := stderr s;
     calib_data := calib_data s;
     read_recursion_depth := read_recursion_depth s; conf := v |}.

(** The session [__init__] leaves behind, given what the endpoint will deliver. *)
Definition new_session {F} (future : list (usb_result (list byte))) : session F :=
  {| sent := []; bulk_in := future; stderr := [];
     calib_data := ∅; read_recursion_depth := 0%nat; conf := None |}.

(** ** Methods as state transformers that may raise *)

Definition M (F A : Type) : Type := session F -> result A * session F.

Definition ret {F A} (a : A) : M F A := fun s => (Ok a, s).

Definition raise {F A} (e : exn) : M F A := fun s => (Raise e, s).

Definition bind {F A B} (m : M F A) (k : A -> M F B) : M F B :=
  fun s => match m s with
           | (Ok a, s') => k a s'
           | (Raise e, s') => (Raise e, s')
           end.

Definition get {F} : M F (session F) := fun s => (Ok s, s).

Definition modify {F} (f : session F -> session F) : M F unit :=
  fun s => (Ok tt, f s).

Declare Scope py_scope.
Delimit Scope py_scope with py.
Notation "x <- c ;; k" := (bind c (fun x => k))
  (at level 100, c at next level, right associativity) : py_scope.
Notation "c ;; k" := (bind c (fun _ => k))
  (at level 100, right associativity) : py_scope.
Open Scope py_scope.

(** A [for] loop over a list, threading the loop-carried value. *)
Fixpoint for_each {F A B} (l : list A) (body : A -> B -> M F B) (acc : B) : M F B :=
  match l with
  | [] => ret acc
  | x :: l' => acc' <- body x acc ;; for_each l' body acc'
  end.

(** ** Buffers and slices *)

(** One item of [array.array('H')]: two bytes, low byte first. *)
Definition le16 (lo hi : byte) : Z :=
  Z.of_N (Byte.to_N lo) + 256 * Z.of_N (Byte.to_N hi).

(** [array('H').fromstring(packet)]: the items the packet holds, or
    [ValueError] when its length is not a multiple of the item size. *)
Fixpoint fromstring (packet : list byte) : option (list Z) :=
  match packet with
  | [] => Some []
  | [_] => None
  | lo :: hi :: rest => cons (le16 lo hi) <$> fromstring rest
  end.

(** [range(a, b)]. *)
Definition py_range (a b : Z) : list Z := seqZ a (b - a).

(** [l[start::step]], with Python's treatment of a negative or too large
    [start] and of a negative [step]; [None] is the [ValueError] of a zero
    step. *)
Definition py_slice_from {A} (start step : Z) (l : list A) : option (list A) :=
  let n := Z.of_nat (length l) in
  if step =? 0 then None
  else
    let first :=
      if start <? 0 then
        (if start + n <? 0 then (if step <? 0 then -1 else 0) else start + n)
      else if n <=? start then (if step <? 0 then n - 1 else n)
      else start in
    let count :=
      if step <? 0 then (if -1 <? first then first / (- step) + 1 else 0)
      else (if first <? n then (n - first - 1) / step + 1 else 0) in
    Some (omap (fun k => l !! Z.to_nat (first + k * step)) (seqZ 0 count)).

(** ** The continuous-mode buffer

    [start_continuous_transfer] allocates [collections.deque(maxlen=buf_size)]
    and hands it to the polling thread. *)
Module StreamBuffer.

Record deque (A : Type) : Type := {
  maxlen : nat;
  items : list A;               (* oldest first *)
}.
Arguments maxlen {A} d.
Arguments items {A} d.

(** [collections.deque(maxlen=buf_size)]. *)
Definition new {A} (buf_size : nat) : deque A :=
  {| maxlen := buf_size; items := [] |}.

(** [deque.append] of a bounded deque: when it is full the item at the
    left end makes room. *)
Definition append {A} (x : A) (d : deque A) : deque A :=
  match maxlen d with
  | O => d
  | S _ =>
      if (length (items d) <? maxlen d)%nat
      then {| maxlen := maxlen d; items := items d ++ [x] |}
      else {| maxlen := maxlen d; items := tl (items d) ++ [x] |}
  end.

(** Modelled from the spec: the loop of [PollingThread] ([daqflex/utils.py],
    not among the sources).  "Any exception from an individual read is
    swallowed and the loop retries; each successfully read packet is
    appended to the StreamBuffer (evicting the oldest packet if at
    capacity)."  The reads are given by their outcomes, in order. *)
Fixpoint poll {A} (reads : list (usb_result A)) (d : deque A) : deque A :=
  match reads with
  | [] => d
  | UsbOk packet :: rest => poll rest (append packet d)
  | UsbErr _ :: rest => poll rest d
  end.

(** The packets among the outcomes of a run of reads. *)
Definition packets {A} (reads : list (usb_result A)) : list A :=
  omap (fun r => match r with UsbOk p => Some p | UsbErr _ => None end) reads.

End StreamBuffer.

(** ** Continuous mode: packet size and the consumer's side of the buffer *)

(** [start_continuous_transfer], lines 180-181: the size of the packets the
    poller asks for; [//] is floor division. *)
Definition continuous_packet_size (rate : Z) (packet_size : option Z) : Z :=
  match packet_size with
  | None => (rate / 1000 + 1) * 64
  | Some size => size
  end.

(** The loop [while self.data_buffer: data.extend(self.data_buffer.popleft())]
    of [get_new_bulk_data], on the packets of the buffer, oldest first. *)
Fixpoint extend_popleft {A} (buffered : list (list A)) (data : list A)
  : list A :=
  match buffered with
  | [] => data
  | packet :: rest => extend_popleft rest (data ++ packet)
  end.

(** [get_new_bulk_data] as far as the buffer goes (lines 204-206 and 209):
    the array returned and the buffer left behind.  [self.data_buffer] is
    [None] until [start_continuous_transfer] has been called. *)
Definition get_new_bulk_data {A}
    (data_buffer : option (StreamBuffer.deque (list A)))
  : list A * option (StreamBuffer.deque (list A)) :=
  match data_buffer with
  | None => ([], None)
  | Some d =>
      (extend_popleft (StreamBuffer.items d) [],
       Some {| StreamBuffer.maxlen := StreamBuffer.maxlen d;
               StreamBuffer.items := [] |})
  end.

(** ** The firmware image of [__init__] *)

(** [range(a, b, step)] for a positive [step]. *)
Definition py_range_step (a b step : Z) : list Z :=
  (fun k => a + k * step) <$> seqZ 0 ((b - a + step - 1) / step).

(** [l[i:j]] for [0 <= i <= j]. *)
Definition py_slice_range {A} (i j : Z) (l : list A) : list A :=
  take (Z.to_nat (j - i)) (drop (Z.to_nat i) l).

(** The messages of the loop
    [for i in range(0, len(rbf), 64): msg = rbf[i:i + 64]]. *)
Definition fpga_chunks (rbf : list byte) : list (list byte) :=
  (fun i => py_slice_range i (i + 64) rbf)
    <$> py_range_step 0 (Z.of_nat (length rbf)) 64.

(** The transfers of request 0x51 in that loop.  [fw_out] is what the device
    makes of a message after the messages uploaded so far; the value a
    transfer returns is not looked at, its [USBError] leaves [__init__]. *)
Fixpoint upload_firmware
    (fw_out : list (list byte) -> list byte -> usb_result Z)
    (chunks uploaded : list (list byte))
  : result unit * list (list byte) :=
  match chunks with
  | [] => (Ok tt, uploaded)
  | msg :: rest =>
      match fw_out uploaded msg with
      | UsbErr errno => (Raise (USBError errno), uploaded ++ [msg])
      | UsbOk _ => upload_firmware fw_out rest (uploaded ++ [msg])
      end
  end.

(** ** Ranges of raw counts

    [all_from p first n]: [p] holds of each of the [n] integers from
    [first] on.  The counter is binary, so that the 65536 values of a
    [uint16] sample can be run through. *)
Definition all_from (p : Z -> bool) (first : Z) (n : positive) : bool :=
  snd (Pos.iter (fun st : Z * bool => (fst st + 1, snd st && p (fst st)))
         (first, true) n).

(** ** Device classes and devices for concrete runs *)

(** What the bench device answers: a query [?KEY] with [KEY=2], any other
    command with the command itself. *)
Definition bench_reply (hist : list string) : usb_result string :=
  match last hist with
  | Some (String "?" query) => UsbOk (rstrip_nul query +:+ "=2")
  | Some command => UsbOk command
  | None => UsbOk EmptyString
  end.

(** A device that takes every command whole, with a 64-byte bulk endpoint. *)
Definition bench (counts : Z) : device :=
  {| ctrl_out := fun _ message => UsbOk (Z.of_nat (String.length message));
     ctrl_in := bench_reply;
     bulk_packet_size := 64;
     max_counts := counts |}.

(** [class USB_7202]: [max_counts = 0xFFFF]. *)
Definition USB_7202 : device := bench 65535.

(** [class USB_7204]: [max_counts = 0x0FFF]. *)
Definition USB_7204 : device := bench 4095.

(** [class USB_2001_TC]: [max_counts = 1]. *)
Definition USB_2001_TC : device := bench 1.

(** The part of Python's [float()] that reads a run of decimal digits. *)
Fixpoint digits_value (s : string) (acc : Z) : option Z :=
  match s with
  | EmptyString => Some acc
  | String c s' =>
      let n := nat_of_ascii c in
      if ((48 <=? n) && (n <=? 57))%nat
      then digits_value s' (10 * acc + Z.of_nat (n - 48))
      else None
  end.

Definition float_of_digits (s : string) : option Q :=
  match s with
  | EmptyString => None
  | _ => inject_Z <$> digits_value s 0
  end.

(** On a scan without scaling [float()] is never called. *)
Definition no_float (_ : string) : option float := None.

(** The one packet of the scenario: the items 10, 20, 30, 40. *)
Definition scenario_packet : list byte :=
  [x0a; x00; x14; x00; x1e; x00; x28; x00].

(** The bench device, except that the OUT transfer of the command sent
    after [n] others fails ([EPIPE]). *)
Definition stalling (n : nat) : device :=
  {| ctrl_out := fun hist message =>
       if (length hist =? n)%nat then UsbErr (Some 32)
       else UsbOk (Z.of_nat (String.length message));
     ctrl_in := bench_reply;
     bulk_packet_size := 64;
     max_counts := 65535 |}.

(** A device that answers every command with the command itself, queries
    included: its replies carry no [=]. *)
Definition acknowledging : device :=
  {| ctrl_out := fun _ message => UsbOk (Z.of_nat (String.length message));
     ctrl_in := fun hist => UsbOk (default EmptyString (last hist));
     bulk_packet_size := 64;
     max_counts := 65535 |}.

(** A device with an FPGA ([class USB_1608G]): its status is
    [CONFIGMODE] until the unlock command has been sent, [CONFIGURED]
    afterwards. *)
Definition USB_1608G : device :=
  {| ctrl_out := fun _ message => UsbOk (Z.of_nat (String.length message));
     ctrl_in := fun hist =>
       match last hist with
       | Some (String "?" _) =>
           if existsb (String.eqb (upper "DEV:FPGACFG=0xAD" +:+ String NUL ""))
                hist
           then UsbOk "DEV:FPGACFG=CONFIGURED"%string
           else UsbOk "DEV:FPGACFG=CONFIGMODE"%string
       | Some command => UsbOk command
       | None => UsbOk EmptyString
       end;
     bulk_packet_size := 64;
     max_counts := 65535 |}.

(** The firmware transfers of a device that takes them all. *)
Definition fw_accepting (_ : list (list byte)) (msg : list byte)
  : usb_result Z :=
  UsbOk (Z.of_nat (length msg)).


(** ** The methods of [MCCDevice] *)

Section MCCDevice.

Context {F : Type} {AF : Arith F}.

(** Python's [float(str)]; [None] is its [ValueError]. *)
Variable float_of_string : string -> option F.

Variable dev : device.

(** *** CommandChannel *)

Definition send_message (message : string) : M F string :=
  let message := message +:+ String NUL EmptyString in
  match ascii_codec (upper message) with
  | None => raise UnicodeError
  | Some wire =>
      s <- get ;;
      modify (set_sent (sent s ++ [wire])) ;;
      match ctrl_out dev (sent s) wire with
      | UsbErr _ => raise (IOError "Send failed, possibly wrong command?")
      | UsbOk written =>
          if written =? Z.of_nat (String.length message) then
            match ctrl_in dev (sent s ++ [wire]) with
            | UsbErr errno => raise (USBError errno)
            | UsbOk reply =>
                match ascii_codec reply with
                | None => raise UnicodeError
                | Some text => ret (rstrip_nul text)
                end
            end
          else raise (IOError "Could not send message")
      end
  end.

Definition stop : M F unit :=
  send_message "AISCAN:STOP" ;; ret tt.

(** *** ScanConfigurator *)

Definition configure_read (frequency nsamples lowchan highchan vrange : Z)
    (mode : string) : M F unit :=
  let vrange_code := "BIP" +:+ fmt_d vrange +:+ "V" in
  let new_conf : conf_t := (mode, vrange, lowchan, highchan, frequency, nsamples) in
  s <- get ;;
  if decide (Some new_conf = conf s) then ret tt
  else
    send_message ("AI:CHMODE=" +:+ mode) ;;
    send_message ("AISCAN:RANGE=" +:+ vrange_code) ;;
    send_message ("AISCAN:LOWCHAN=" +:+ fmt_d lowchan) ;;
    send_message ("AISCAN:HIGHCHAN=" +:+ fmt_d highchan) ;;
    send_message ("AISCAN:RATE=" +:+ fmt_d frequency) ;;
    send_message ("AISCAN:SAMPLES=" +:+ fmt_d nsamples) ;;
    modify (set_conf (Some new_conf)).

(** *** SynchronousBulkReader *)

(** libusb's error for a packet longer than the buffer asked for. *)
Definition EOVERFLOW : Z := 75.

(** What [self._ep_in.read(size, timeout)] makes of the next outcome of the
    endpoint.  Whether the device met the time-out is part of the outcome,
    so [timeout] itself decides nothing here. *)
Definition ep_deliver (size timeout : Z) (o : usb_result (list byte))
  : usb_result (list byte) :=
  match o with
  | UsbOk packet =>
      if Z.of_nat (length packet) <=? size then UsbOk packet
      else UsbErr (Some EOVERFLOW)
  | UsbErr errno => UsbErr errno
  end.

(** [int(self._bulk_packet_size * 1e3 / 2 / rate) + 10]; the quotient is
    exact in binary64 for the sizes and rates of USB devices, and [int]
    truncates towards zero. *)
Definition scan_timeout (rate : Z) : Z :=
  Z.quot (bulk_packet_size dev * 500) rate + 10.

(** The [while True] of [read_scan_data], on the future of the endpoint.
    An exhausted future is a read that times out. *)
Fixpoint read_scan_loop (length_ timeout : Z)
    (future : list (usb_result (list byte))) (data : list Z) {struct future}
  : result (list Z) * list (usb_result (list byte)) :=
  match future with
  | [] => (Ok data, [])
  | o :: rest =>
      match ep_deliver (bulk_packet_size dev) timeout o with
      | UsbErr errno =>
          if decide (errno = Some ETIMEDOUT) then (Ok data, rest)
          else (Raise (USBError errno), rest)
      | UsbOk packet =>
          if (length packet =? 0)%nat then (Ok data, rest)
          else
            match fromstring packet with
            | None => (Raise ValueError, rest)
            | Some values =>
                let data := data ++ values in
                if length_ <=? Z.of_nat (length data) then (Ok data, rest)
                else read_scan_loop length_ timeout rest data
            end
      end
  end.

Definition read_scan_data (length_ rate : Z) : M F (list Z) :=
  fun s =>
    if rate =? 0 then (Raise ZeroDivisionError, s)
    else
      let timeout := scan_timeout rate in
      let '(r, rest) := read_scan_loop length_ timeout (bulk_in s) [] in
      (r, set_bulk_in rest s).

(** The loop of [flush_input_data]: any [USBError], the time-out of a quiet
    endpoint included, ends it, and so does an empty packet. *)
Fixpoint flush_loop (future : list (usb_result (list byte)))
  : list (usb_result (list byte)) :=
  match future with
  | [] => []
  | o :: rest =>
      match ep_deliver (bulk_packet_size dev) 20 o with
      | UsbErr _ => rest
      | UsbOk packet =>
          if (length packet =? 0)%nat then rest else flush_loop rest
      end
  end.

Definition flush_input_data : M F unit :=
  modify (fun s => set_bulk_in (flush_loop (bulk_in s)) s).

(** *** Calibration *)

(** [float(reply.split('=')[1])]. *)
Definition float_after_eq (reply : string) : M F F :=
  match split_eq reply with
  | _ :: piece :: _ =>
      match float_of_string piece with
      | Some x => ret x
      | None => raise ValueError
      end
  | _ => raise IndexError
  end.

Definition get_calib_data (channel : Z) : M F (F * F) :=
  r <- send_message ("?AI{" +:+ fmt_d channel +:+ "}:SLOPE") ;;
  slope <- float_after_eq r ;;
  r <- send_message ("?AI{" +:+ fmt_d channel +:+ "}:OFFSET") ;;
  offset <- float_after_eq r ;;
  ret (slope, offset).

(** [scale_and_calibrate_data] on one number; [cls.max_counts] is the
    class constant of the device. *)
Definition scale_and_calibrate_data (data min_voltage max_voltage : F)
    (calib : F * F) : F :=
  let '(slope, offset) := calib in
  let full_scale := fsub max_voltage min_voltage in
  let cal_data := fadd (fmul data slope) offset in
  fadd (fmul (fdiv cal_data (of_int (max_counts dev))) full_scale) min_voltage.

(** The same on a numpy array: elementwise, raw counts promoted to float. *)
Definition scale_and_calibrate_array (data : ndarray F)
    (min_voltage max_voltage : F) (calib : F * F) : ndarray F :=
  let f x := scale_and_calibrate_data x min_voltage max_voltage calib in
  match data with
  | IntArray l => FloatArray (f <$> (of_int <$> l))
  | FloatArray l => FloatArray (f <$> l)
  end.

(** *** SampleProcessor *)

(** Lines 341-347 of [simple_read]: the calibration of a channel, fetched
    from the device the first time its key is met. *)
Definition cached_calib (chan : Z) (mode vrange_code : string) : M F (F * F) :=
  let key : calib_key := (chan, mode, vrange_code) in
  s <- get ;;
  (if decide (is_Some (calib_data s !! key)) then ret tt
   else
     c <- get_calib_data chan ;;
     modify (fun s => set_calib_data (<[key := c]> (calib_data s)) s)) ;;
  s <- get ;;
  match calib_data s !! key with
  | Some cal => ret cal
  | None => raise KeyError
  end.

(** The body of the [for chan in range(...)] loop. *)
Definition read_channel (data : list Z) (nchannels vrange : Z)
    (mode vrange_code : string) (scale : bool)
    (chan : Z) (out : gmap Z (ndarray F)) : M F (gmap Z (ndarray F)) :=
  match py_slice_from chan nchannels data with
  | None => raise ValueError
  | Some column =>
      let out := <[chan := IntArray column]> out in
      if scale then
        cal <- cached_calib chan mode vrange_code ;;
        match out !! chan with
        | Some a =>
            ret (<[chan := scale_and_calibrate_array a
                              (of_int (- vrange)) (of_int vrange) cal]> out)
        | None => raise KeyError
        end
      else ret out
  end.

(** Lines 329-354 of [simple_read]: from the flat buffer to the result. *)
Definition split_channels (data : list Z) (nsamples lowchan highchan vrange : Z)
    (mode vrange_code : string) (scale : bool) : M F (read_result F) :=
  let nchannels := 1 + highchan - lowchan in
  if nchannels =? 0 then raise ZeroDivisionError  (* nsamples / nchannels *)
  else
    out <- for_each (py_range lowchan (Z.max (lowchan + 1) highchan))
             (read_channel data nchannels vrange mode vrange_code scale) ∅ ;;
    match map_to_list out with
    | [(_, a)] => ret (Single a)
    | _ => ret (Multi out)
    end.

(** The line [simple_read] prints before a retry. *)
Definition retry_message (samples : nat) (retries : nat) : string :=
  "incorrect read length: " +:+ pretty samples +:+ " samples, "
    +:+ pretty retries +:+ " retries".

(** [simple_read].  Its recursion is bounded by [fuel], the depth of stack
    the interpreter allows; [RecursionLimit] is raised beyond it. *)
Fixpoint simple_read (fuel : nat)
    (frequency nsamples lowchan highchan vrange : Z) (mode : string)
    (scale : bool) {struct fuel} : M F (read_result F) :=
  match fuel with
  | O => raise RecursionLimit
  | S fuel' =>
      configure_read frequency nsamples lowchan highchan vrange mode ;;
      send_message "AISCAN:START" ;;
      raw <- read_scan_data nsamples frequency ;;
      stop ;;
      let vrange_code := "BIP" +:+ fmt_d vrange +:+ "V" in
      let data := raw in
      s <- get ;;
      returned <-
        (if negb (Z.of_nat (length raw) =? nsamples) then
           if (read_recursion_depth s <? 10)%nat then
             modify (set_read_recursion_depth (read_recursion_depth s + 1)) ;;
             modify (fun s' =>
               set_stderr (stderr s' ++
                 [retry_message (length raw) (read_recursion_depth s + 1)]) s') ;;
             flush_input_data ;;
             r <- simple_read fuel' frequency nsamples lowchan highchan
                    vrange mode scale ;;
             ret (Some r)
           else
             modify (set_read_recursion_depth 0) ;; ret None
         else
           modify (set_read_recursion_depth 0) ;; ret None) ;;
      match returned with
      | Some r => ret r
      | None =>
          split_channels data nsamples lowchan highchan vrange mode
            vrange_code scale
      end
  end.

(** *** Vocabulary of the specification *)

(** What [send_message] puts on the wire for [message]. *)
Definition wire (message : string) : string :=
  upper (message +:+ String NUL EmptyString).

(** The device takes [message] after the traffic [hist] and answers [reply]. *)
Definition accepted (hist : list string) (message reply : string) : Prop :=
  is_ascii (wire message) = true /\
  ctrl_out dev hist (wire message)
    = UsbOk (Z.of_nat (String.length (message +:+ String NUL EmptyString))) /\
  ctrl_in dev (hist ++ [wire message]) = UsbOk reply /\
  is_ascii reply = true.

(** The device takes each of [messages], one after the other. *)
Fixpoint acknowledged (hist : list string) (messages : list string) : Prop :=
  match messages with
  | [] => True
  | m :: ms =>
      (exists reply, accepted hist m reply) /\ acknowledged (hist ++ [wire m]) ms
  end.

(** The six commands of [configure_read], in the order of the source. *)
Definition config_messages (frequency nsamples lowchan highchan vrange : Z)
    (mode : string) : list string :=
  [ "AI:CHMODE=" +:+ mode;
    "AISCAN:RANGE=" +:+ ("BIP" +:+ fmt_d vrange +:+ "V");
    "AISCAN:LOWCHAN=" +:+ fmt_d lowchan;
    "AISCAN:HIGHCHAN=" +:+ fmt_d highchan;
    "AISCAN:RATE=" +:+ fmt_d frequency;
    "AISCAN:SAMPLES=" +:+ fmt_d nsamples ].

(** A method leaves an observation [f] of the session alone. *)
Definition preserves {A X} (f : session F -> X) (m : M F A) : Prop :=
  forall s r s', m s = (r, s') -> f s' = f s.

(** Sending each message of a list in turn: the shape of the body of
    [configure_read] once the configuration is known to be new. *)
Fixpoint send_all (messages : list string) : M F unit :=
  match messages with
  | [] => ret tt
  | m :: ms => send_message m ;; send_all ms
  end.

(** A packet that keeps the loop of [read_scan_data] going: it is not
    empty, fits the buffer asked for and holds whole 16-bit items. *)
Definition full_packet (p : list byte) : Prop :=
  (0 < length p)%nat /\
  Z.of_nat (length p) <= bulk_packet_size dev /\
  is_Some (fromstring p).

(** The items a run of packets holds, in order of arrival. *)
Definition samples_of (ps : list (list byte)) : list Z :=
  flat_map (fun p => default [] (fromstring p)) ps.

(** The number a calibration reply carries after its [=]. *)
Definition calib_value (reply : string) : option F :=
  match split_eq reply with
  | _ :: piece :: _ => float_of_string piece
  | _ => None
  end.

Definition slope_query (chan : Z) : string := "?AI{" +:+ fmt_d chan +:+ "}:SLOPE".

Definition offset_query (chan : Z) : string := "?AI{" +:+ fmt_d chan +:+ "}:OFFSET".

(** *** One attempt of [simple_read] and its retries *)

Section Attempts.

Variables frequency nsamples lowchan highchan vrange : Z.
Variable mode : string.

(** One attempt: the first four statements of [simple_read]. *)
Definition attempt : M F (list Z) :=
  configure_read frequency nsamples lowchan highchan vrange mode ;;
  send_message "AISCAN:START" ;;
  raw <- read_scan_data nsamples frequency ;;
  stop ;;
  ret raw.

(** The session in which [simple_read] calls itself after a short read
    [raw]: counter incremented, message printed, input flushed. *)
Definition retry_session (raw : list Z) (s : session F) : session F :=
  let depth := (read_recursion_depth s + 1)%nat in
  let s1 := set_read_recursion_depth depth s in
  let s2 := set_stderr (stderr s1 ++ [retry_message (length raw) depth]) s1 in
  set_bulk_in (flush_loop (bulk_in s2)) s2.

(** The session at the start of the attempt that follows [k] retries. *)
Fixpoint after_retries (k : nat) (s : session F) : session F :=
  match k with
  | O => s
  | S k' =>
      match attempt s with
      | (Ok raw, s1) => after_retries k' (retry_session raw s1)
      | (Raise _, s1) => s1
      end
  end.

(** The attempt made in [s] and the [k] attempts that follow it through
    [retry_session] all go through and all return a count of items
    different from [nsamples]. *)
Fixpoint short_reads (k : nat) (s : session F) : Prop :=
  exists raw s1,
    attempt s = (Ok raw, s1) /\
    Z.of_nat (length raw) <> nsamples /\
    match k with
    | O => True
    | S k' => short_reads k' (retry_session raw s1)
    end.

Fixpoint short_readsb (k : nat) (s : session F) : bool :=
  match attempt s with
  | (Ok raw, s1) =>
      negb (Z.of_nat (length raw) =? nsamples) &&
      match k with
      | O => true
      | S k' => short_readsb k' (retry_session raw s1)
      end
  | (Raise _, _) => false
  end.

End Attempts.

(** The scans started according to the wire log. *)
Fixpoint scan_starts (log : list string) : nat :=
  match log with
  | [] => 0
  | m :: log' =>
      ((if String.eqb m (wire "AISCAN:START") then 1 else 0) + scan_starts log')%nat
  end.

(** *** The FPGA of [__init__] *)

(** Lines 82-100 of [__init__]: the configuration of the FPGA of a class
    with a firmware image ([fpga_image] is its content, [None] for a class
    without one).  Beside the session, the messages uploaded with request
    0x51 are returned. *)
Definition configure_fpga
    (fw_out : list (list byte) -> list byte -> usb_result Z)
    (fpga_image : option (list byte)) (s : session F)
  : result unit * session F * list (list byte) :=
  match fpga_image with
  | None => (Ok tt, s, [])
  | Some rbf =>
      match send_message "?DEV:FPGACFG" s with
      | (Raise e, s1) => (Raise e, s1, [])
      | (Ok ret, s1) =>
          let '(r, s2, uploaded) :=
            if String.eqb ret "DEV:FPGACFG=CONFIGMODE" then
              match send_message "DEV:FPGACFG=0xAD" s1 with
              | (Raise e, s2) => (Raise e, s2, [])
              | (Ok _, s2) =>
                  let '(r, uploaded) :=
                    upload_firmware fw_out (fpga_chunks rbf) [] in
                  (r, s2, uploaded)
              end
            else (Ok tt, s1, []) in
          match r with
          | Raise e => (Raise e, s2, uploaded)
          | Ok _ =>
              match send_message "?DEV:FPGACFG" s2 with
              | (Raise e, s3) => (Raise e, s3, uploaded)
              | (Ok ret, s3) =>
                  if String.eqb ret "DEV:FPGACFG=CONFIGURED"
                  then (Ok tt, s3, uploaded)
                  else (Raise (IOError "Could not configure FPGA"), s3,
                        uploaded)
              end
          end
      end
  end.

(** *** Vocabulary of the further properties *)

(** The last character of a string. *)
Fixpoint last_char (s : string) : option ascii :=
  match s with
  | EmptyString => None
  | String c EmptyString => Some c
  | String _ s' => last_char s'
  end.

(** [n] NUL characters: the padding of a control reply. *)
Fixpoint nul_padding (n : nat) : string :=
  match n with
  | O => EmptyString
  | S n' => String NUL (nul_padding n')
  end.

(** No [=] in the string. *)
Fixpoint no_eq_sign (s : string) : bool :=
  match s with
  | EmptyString => true
  | String c s' => negb (Ascii.eqb c "="%char) && no_eq_sign s'
  end.

(** A method never raises the exception [e0]. *)
Definition never_raises {A} (e0 : exn) (m : M F A) : Prop :=
  forall s e s', m s = (Raise e, s') -> e <> e0.


(** An exception that is none of those of the layers below [simple_read]. *)
Definition internal_only (e0 : exn) : Prop :=
  e0 = KeyError \/ e0 = RecursionLimit.

(** * Properties *)

(** ** Reasoning about methods *)

Lemma bind_Ok {A B} (m : M F A) (k : A -> M F B) s a s1 :
  m s = (Ok a, s1) -> bind m k s = k a s1.
Proof. intros H. unfold bind. now rewrite H. Qed.

Lemma bind_Raise {A B} (m : M F A) (k : A -> M F B) s e s1 :
  m s = (Raise e, s1) -> bind m k s = (Raise e, s1).
Proof. intros H. unfold bind. now rewrite H. Qed.

Lemma bind_Ok_inv {A B} (m : M F A) (k : A -> M F B) s b s' :
  bind m k s = (Ok b, s') ->
  exists a s1, m s = (Ok a, s1) /\ k a s1 = (Ok b, s').
Proof.
  unfold bind. destruct (m s) as [[a|e] s1]; intros H.
  - eauto.
  - discriminate.
Qed.

Lemma bind_Raise_inv {A B} (m : M F A) (k : A -> M F B) s e s' :
  bind m k s = (Raise e, s') ->
  m s = (Raise e, s') \/
  exists a s1, m s = (Ok a, s1) /\ k a s1 = (Raise e, s').
Proof.
  unfold bind. destruct (m s) as [[a|e0] s1]; intros H.
  - right. eauto.
  - left. now inversion H.
Qed.

Lemma preserves_ret {A X} (f : session F -> X) (a : A) : preserves f (ret a).
Proof. intros s r s' H. now inversion H. Qed.

Lemma preserves_raise {A X} (f : session F -> X) e :
  preserves f (@raise F A e).
Proof. intros s r s' H. now inversion H. Qed.

Lemma preserves_get {X} (f : session F -> X) : preserves f get.
Proof. intros s r s' H. now inversion H. Qed.

Lemma preserves_modify {X} (f : session F -> X) g :
  (forall s, f (g s) = f s) -> preserves f (modify g).
Proof. intros Hg s r s' H. inversion H. apply Hg. Qed.

Lemma preserves_bind {A B X} (f : session F -> X) (m : M F A) (k : A -> M F B) :
  preserves f m -> (forall a, preserves f (k a)) -> preserves f (bind m k).
Proof.
  intros Hm Hk s r s'. unfold bind.
  destruct (m s) as [[a|e] s1] eqn:E; intros H.
  - rewrite (Hk a _ _ _ H). eapply Hm, E.
  - inversion H; subst. eapply Hm, E.
Qed.

Lemma preserves_for_each {A B X} (f : session F -> X) (l : list A)
    (body : A -> B -> M F B) :
  (forall x acc, preserves f (body x acc)) ->
  forall acc, preserves f (for_each l body acc).
Proof.
  intros Hb. induction l as [|x l IH]; intros acc; simpl.
  - apply preserves_ret.
  - apply preserves_bind; [apply Hb | intros a; apply IH].
Qed.

(** *** [send_message] *)

Lemma send_message_accepted message reply s :
  accepted (sent s) message reply ->
  send_message message s
    = (Ok (rstrip_nul reply), set_sent (sent s ++ [wire message]) s).
Proof.
  intros (Hw & Hout & Hin & Hr). unfold send_message, ascii_codec.
  fold (wire message). rewrite Hw.
  unfold bind, get, modify. simpl. rewrite Hout, Z.eqb_refl, Hin, Hr.
  reflexivity.
Qed.

Lemma send_message_Ok_inv message r s s' :
  send_message message s = (Ok r, s') ->
  s' = set_sent (sent s ++ [wire message]) s /\
  exists reply, accepted (sent s) message reply /\ r = rstrip_nul reply.
Proof.
  unfold send_message, ascii_codec, accepted. fold (wire message).
  destruct (is_ascii (wire message)) eqn:Hw; [|discriminate].
  unfold bind, get, modify; simpl.
  destruct (ctrl_out dev (sent s) (wire message)) as [n|] eqn:Hout;
    [|discriminate].
  destruct (Z.eqb_spec n
    (Z.of_nat (String.length (message +:+ String NUL EmptyString))))
    as [->|]; [|discriminate].
  destruct (ctrl_in dev (sent s ++ [wire message])) as [reply|] eqn:Hin;
    [|discriminate].
  destruct (is_ascii reply) eqn:Hr; [|discriminate].
  intros H; inversion H; subst. split; [reflexivity|].
  exists reply. auto.
Qed.

(** Whatever happens, [send_message] touches nothing but the wire log. *)
Lemma send_message_frame message s r s' :
  send_message message s = (r, s') ->
  s' = s \/ s' = set_sent (sent s ++ [wire message]) s.
Proof.
  unfold send_message, ascii_codec. fold (wire message).
  destruct (is_ascii (wire message)).
  - unfold bind, get, modify; simpl. intros H. right.
    repeat match type of H with
           | context [match ?x with _ => _ end] => destruct x
           end; now inversion H.
  - intros H; inversion H. now left.
Qed.

Lemma send_message_preserves {X} (f : session F -> X) message :
  (forall v s, f (set_sent v s) = f s) -> preserves f (send_message message).
Proof.
  intros Hf s r s' H.
  destruct (send_message_frame _ _ _ _ H) as [-> | ->]; [reflexivity | apply Hf].
Qed.

(** *** [configure_read] *)

Lemma set_sent_same (s : session F) : set_sent (sent s ++ []) s = s.
Proof. destruct s. unfold set_sent. simpl. now rewrite app_nil_r. Qed.

Lemma send_all_preserves {X} (f : session F -> X) messages :
  (forall v s, f (set_sent v s) = f s) -> preserves f (send_all messages).
Proof.
  intros Hf. induction messages as [|m ms IH]; simpl.
  - apply preserves_ret.
  - apply preserves_bind; [now apply send_message_preserves | intros _; exact IH].
Qed.

Lemma send_all_acknowledged messages : forall s,
  acknowledged (sent s) messages ->
  send_all messages s
    = (Ok tt, set_sent (sent s ++ (wire <$> messages)) s).
Proof.
  induction messages as [|m ms IH]; intros s Hack; simpl in *.
  - unfold ret. now rewrite set_sent_same.
  - destruct Hack as [[reply Hm] Hms].
    rewrite (bind_Ok _ _ _ _ _ (send_message_accepted _ _ _ Hm)).
    rewrite IH by exact Hms. simpl. now rewrite <- app_assoc.
Qed.

Lemma send_all_Ok_inv messages : forall s s',
  send_all messages s = (Ok tt, s') ->
  acknowledged (sent s) messages /\
  s' = set_sent (sent s ++ (wire <$> messages)) s.
Proof.
  induction messages as [|m ms IH]; intros s s' H; simpl in *.
  - inversion H; subst. split; [exact I | now rewrite set_sent_same].
  - apply bind_Ok_inv in H as (r & s1 & Hm & Hms).
    apply send_message_Ok_inv in Hm as (-> & reply & Hacc & _).
    apply IH in Hms as (Hack & ->). simpl in *.
    split; [split; eauto | now rewrite <- app_assoc].
Qed.

(** The first command that fails ends the sequence with its exception. *)
Lemma send_all_first_failure pre m post e s s_e :
  acknowledged (sent s) pre ->
  send_message m (set_sent (sent s ++ (wire <$> pre)) s) = (Raise e, s_e) ->
  send_all (pre ++ m :: post) s = (Raise e, s_e).
Proof.
  revert s. induction pre as [|p pre IH]; intros s Hack Hm; simpl in *.
  - rewrite set_sent_same in Hm. now rewrite (bind_Raise _ _ _ _ _ Hm).
  - destruct Hack as [[reply Hp] Hpre].
    rewrite (bind_Ok _ _ _ _ _ (send_message_accepted _ _ _ Hp)).
    apply IH; simpl; [exact Hpre | now rewrite <- app_assoc].
Qed.

Lemma configure_read_unfold frequency nsamples lowchan highchan vrange mode s :
  configure_read frequency nsamples lowchan highchan vrange mode s
  = if decide (Some (mode, vrange, lowchan, highchan, frequency, nsamples)
               = conf s)
    then (Ok tt, s)
    else bind
           (send_all
              (config_messages frequency nsamples lowchan highchan vrange mode))
           (fun _ =>
              modify (set_conf
                (Some (mode, vrange, lowchan, highchan, frequency, nsamples))))
           s.
Proof.
  unfold configure_read. unfold bind at 1. unfold get. cbv beta iota zeta.
  repeat case_decide; try reflexivity;
    try (exfalso; match goal with Hn : _ <> _ |- _ => apply Hn; assumption end).
  unfold config_messages, send_all, bind, ret.
  repeat match goal with
         | |- context [send_message ?m ?t] =>
             destruct (send_message m t) as [[?|?] ?]; [|reflexivity]
         end.
  reflexivity.
Qed.

(** C5. A call of [configure_read] whose configuration equals the recorded
    one sends nothing and changes nothing; for a new configuration, a device
    that takes the commands receives channel mode, range, low channel, high
    channel, rate and sample count, in this order and nothing else, and the
    configuration is recorded; and after any successful call a second call
    with the same arguments sends nothing. *)
Theorem configure_read_idempotent :
  forall (frequency nsamples lowchan highchan vrange : Z) (mode : string)
         (s : session F),
    let new_conf : conf_t :=
      (mode, vrange, lowchan, highchan, frequency, nsamples) in
    let messages :=
      config_messages frequency nsamples lowchan highchan vrange mode in
    let configure :=
      configure_read frequency nsamples lowchan highchan vrange mode in
    (conf s = Some new_conf -> configure s = (Ok tt, s)) /\
    (conf s <> Some new_conf -> acknowledged (sent s) messages ->
       configure s
       = (Ok tt, set_conf (Some new_conf)
                   (set_sent (sent s ++ (wire <$> messages)) s))) /\
    (forall s', configure s = (Ok tt, s') ->
       conf s' = Some new_conf /\
       (conf s <> Some new_conf -> sent s' = sent s ++ (wire <$> messages)) /\
       configure s' = (Ok tt, s')).
Proof.
  intros frequency nsamples lowchan highchan vrange mode s
         new_conf messages configure.
  subst configure. repeat split.
  - intros Hc. rewrite configure_read_unfold.
    destruct (decide _) as [_|n]; [reflexivity | now rewrite Hc in n].
  - intros Hc Hack. rewrite configure_read_unfold.
    destruct (decide _) as [e|_]; [now rewrite <- e in Hc|].
    now rewrite (bind_Ok _ _ _ _ _ (send_all_acknowledged _ _ Hack)).
  - rewrite configure_read_unfold in H.
    destruct (decide _) as [e|_]; [inversion H; now subst|].
    apply bind_Ok_inv in H as ([] & s1 & _ & H). now inversion H.
  - intros Hc. rewrite configure_read_unfold in H.
    destruct (decide _) as [e|_]; [now rewrite <- e in Hc|].
    apply bind_Ok_inv in H as ([] & s1 & Hs & H).
    apply send_all_Ok_inv in Hs as [_ ->]. now inversion H.
  - assert (Hc : conf s' = Some new_conf).
    { rewrite configure_read_unfold in H.
      destruct (decide _) as [e|_]; [inversion H; now subst|].
      apply bind_Ok_inv in H as ([] & s1 & _ & H). now inversion H. }
    rewrite configure_read_unfold.
    destruct (decide _) as [_|n]; [reflexivity | now rewrite Hc in n].
Qed.

(** C6. When a command of [configure_read] fails, its exception is the
    outcome of the call; and whenever the call raises, the recorded
    configuration is what it was and differs from the requested one, so
    that calling again with the same arguments sends the six commands
    again. *)
Theorem configure_read_failure_keeps_conf :
  forall (frequency nsamples lowchan highchan vrange : Z) (mode : string)
         (s : session F),
    let new_conf : conf_t :=
      (mode, vrange, lowchan, highchan, frequency, nsamples) in
    let messages :=
      config_messages frequency nsamples lowchan highchan vrange mode in
    let configure :=
      configure_read frequency nsamples lowchan highchan vrange mode in
    (forall pre m post e s_e,
       conf s <> Some new_conf ->
       messages = pre ++ m :: post ->
       acknowledged (sent s) pre ->
       send_message m (set_sent (sent s ++ (wire <$> pre)) s) = (Raise e, s_e) ->
       configure s = (Raise e, s_e)) /\
    (forall e s',
       configure s = (Raise e, s') ->
       conf s' = conf s /\
       conf s' <> Some new_conf /\
       (acknowledged (sent s') messages ->
          configure s'
          = (Ok tt, set_conf (Some new_conf)
                      (set_sent (sent s' ++ (wire <$> messages)) s')))).
Proof.
  intros frequency nsamples lowchan highchan vrange mode s
         new_conf messages configure.
  subst configure. split.
  - intros pre m post e s_e Hc Hsplit Hack Hm.
    rewrite configure_read_unfold.
    destruct (decide _) as [E|_]; [now rewrite <- E in Hc|].
    fold messages. rewrite Hsplit.
    now rewrite (bind_Raise _ _ _ _ _
                   (send_all_first_failure _ _ post _ _ _ Hack Hm)).
  - intros e s' H.
    assert (Hsame : conf s' = conf s /\ conf s <> Some new_conf).
    { rewrite configure_read_unfold in H.
      destruct (decide _) as [E|n]; [discriminate|].
      split; [|intros Hx; apply n; symmetry; exact Hx].
      apply bind_Raise_inv in H as [H | ([] & s1 & _ & H)]; [|discriminate].
      eapply (send_all_preserves conf); [reflexivity | exact H]. }
    destruct Hsame as [Hsame Hne]. split; [exact Hsame|].
    split; [rewrite Hsame; exact Hne|].
    intros Hack. rewrite configure_read_unfold.
    destruct (decide _) as [E|_];
      [exfalso; apply Hne; rewrite <- Hsame; symmetry; exact E|].
    now rewrite (bind_Ok _ _ _ _ _ (send_all_acknowledged _ _ Hack)).
Qed.

(** *** [read_scan_data] *)

Lemma fromstring_length_le (n : nat) : forall p values,
  (length p <= n)%nat -> fromstring p = Some values ->
  length p = (2 * length values)%nat.
Proof.
  induction n as [|n IH]; intros p values Hn H.
  - destruct p; [|simpl in Hn; lia]. now inversion H.
  - destruct p as [|lo [|hi p]]; simpl in *.
    + now inversion H.
    + discriminate.
    + destruct (fromstring p) as [vs|] eqn:E; [|discriminate].
      inversion H; subst. simpl.
      rewrite (IH p vs); [lia | lia | exact E].
Qed.

Lemma fromstring_length p values :
  fromstring p = Some values -> length p = (2 * length values)%nat.
Proof. apply (fromstring_length_le (length p)). lia. Qed.

(** The loop walks through full packets as long as the count asked for is
    not reached. *)
Lemma read_scan_loop_full_packets length_ timeout pre : forall data tail,
  Forall full_packet pre ->
  Z.of_nat (length (data ++ samples_of pre)) < length_ ->
  read_scan_loop length_ timeout ((UsbOk <$> pre) ++ tail) data
  = read_scan_loop length_ timeout tail (data ++ samples_of pre).
Proof.
  induction pre as [|p pre IH]; intros data tail Hfull Hlen; simpl.
  - now rewrite app_nil_r.
  - inversion Hfull as [|? ? (Hpos & Hfit & [values Hv]) Hrest]; subst.
    unfold samples_of in *. simpl in Hlen. rewrite Hv in *. simpl in *.
    destruct (Z.leb_spec (Z.of_nat (length p)) (bulk_packet_size dev)); [|lia].
    destruct (Nat.eqb_spec (length p) 0); [lia|].
    rewrite Hv. rewrite app_assoc in Hlen.
    destruct (Z.leb_spec length_ (Z.of_nat (length (data ++ values)))).
    + rewrite length_app in Hlen. lia.
    + rewrite IH by assumption. now rewrite app_assoc.
Qed.

(** C7. After any run of full packets that leaves the count asked for
    unreached, a read that times out, a read of zero bytes, and the silence
    of an endpoint with nothing left each make [read_scan_data] return the
    items received so far, without an exception; a USB error whose errno is
    not [ETIMEDOUT] is raised to the caller. *)
Theorem read_scan_data_returns_early :
  forall (length_ rate : Z) (s : session F) (pre : list (list byte))
         (rest : list (usb_result (list byte))),
    rate <> 0 ->
    Forall full_packet pre ->
    Z.of_nat (length (samples_of pre)) < length_ ->
    (forall o,
       ep_deliver (bulk_packet_size dev) (scan_timeout rate) o
         = UsbErr (Some ETIMEDOUT) \/
       ep_deliver (bulk_packet_size dev) (scan_timeout rate) o = UsbOk [] ->
       bulk_in s = (UsbOk <$> pre) ++ o :: rest ->
       read_scan_data length_ rate s
       = (Ok (samples_of pre), set_bulk_in rest s)) /\
    (bulk_in s = UsbOk <$> pre ->
       read_scan_data length_ rate s
       = (Ok (samples_of pre), set_bulk_in [] s)) /\
    (forall o errno,
       ep_deliver (bulk_packet_size dev) (scan_timeout rate) o
         = UsbErr errno ->
       errno <> Some ETIMEDOUT ->
       bulk_in s = (UsbOk <$> pre) ++ o :: rest ->
       read_scan_data length_ rate s
       = (Raise (USBError errno), set_bulk_in rest s)).
Proof.
  intros length_ rate s pre rest Hrate Hfull Hlen.
  assert (Hrun : forall tail,
            read_scan_loop length_ (scan_timeout rate)
              ((UsbOk <$> pre) ++ tail) []
            = read_scan_loop length_ (scan_timeout rate) tail
                (samples_of pre)).
  { intros tail. now rewrite read_scan_loop_full_packets. }
  unfold read_scan_data.
  destruct (Z.eqb_spec rate 0) as [|_]; [contradiction|].
  repeat split.
  - intros o Ho ->. rewrite Hrun. simpl.
    destruct Ho as [-> | ->]; reflexivity.
  - intros ->. rewrite <- (app_nil_r (UsbOk <$> pre)), Hrun. reflexivity.
  - intros o errno Hd Hne ->. rewrite Hrun. simpl. rewrite Hd.
    destruct (decide (errno = Some ETIMEDOUT)) as [e|_];
      [contradiction | reflexivity].
Qed.

(** Once the count asked for is reached, it is exceeded by less than the
    items of one packet. *)
Lemma read_scan_loop_overshoot length_ timeout : forall future data out rest,
  Z.of_nat (length data) < length_ ->
  read_scan_loop length_ timeout future data = (Ok out, rest) ->
  length_ <= Z.of_nat (length out) ->
  Z.of_nat (length out) <= length_ - 1 + bulk_packet_size dev / 2.
Proof.
  induction future as [|o future IH]; intros data out rest Hdata H Hout;
    simpl in H.
  - inversion H; subst. lia.
  - destruct (ep_deliver (bulk_packet_size dev) timeout o)
      as [packet|errno] eqn:Hd.
    + destruct (length packet =? 0)%nat; [inversion H; subst; lia|].
      destruct (fromstring packet) as [values|] eqn:Hv; [|discriminate].
      assert (Hfit : Z.of_nat (length packet) <= bulk_packet_size dev).
      { destruct o as [p|]; simpl in Hd; [|discriminate].
        destruct (Z.leb_spec (Z.of_nat (length p)) (bulk_packet_size dev));
          [|discriminate].
        now inversion Hd; subst. }
      apply fromstring_length in Hv.
      destruct (Z.leb_spec length_ (Z.of_nat (length (data ++ values)))).
      * inversion H; subst. rewrite length_app in *.
        assert (Z.of_nat (length values) <= bulk_packet_size dev / 2)
          by (apply Z.div_le_lower_bound; lia).
        lia.
      * eapply IH; eauto.
    + destruct (decide (errno = Some ETIMEDOUT)); [|discriminate].
      inversion H; subst. lia.
Qed.

Lemma samples_of_replicate (n : nat) (p : list byte) (v : Z) :
  fromstring p = Some [v] -> samples_of (replicate n p) = replicate n v.
Proof.
  intros Hp. unfold samples_of.
  induction n as [|n IH]; simpl; [reflexivity|]. now rewrite Hp, IH.
Qed.

(** C10. [read_scan_data] tests the count only after a whole packet has been
    added.  So for every positive count asked for, on an endpoint whose
    packets can hold two items, some stream makes it return more items than
    asked for; and whenever the returned count reaches the one asked for,
    the excess is less than the items of one packet. *)
Theorem read_scan_data_may_exceed_length :
  forall (length_ rate : Z),
    0 < length_ -> rate <> 0 ->
    (4 <= bulk_packet_size dev ->
     exists (s : session F) data s',
       read_scan_data length_ rate s = (Ok data, s') /\
       length_ < Z.of_nat (length data)) /\
    (forall (s : session F) data s',
       read_scan_data length_ rate s = (Ok data, s') ->
       length_ <= Z.of_nat (length data) ->
       Z.of_nat (length data) <= length_ - 1 + bulk_packet_size dev / 2).
Proof.
  intros length_ rate Hpos Hrate. split.
  - intros Hsize.
    set (one := [x01; x00]).
    set (two := [x01; x00; x02; x00]).
    set (n := Z.to_nat (length_ - 1)).
    exists (new_session ((UsbOk <$> replicate n one) ++ [UsbOk two])).
    assert (Hs : samples_of (replicate n one) = replicate n 1)
      by (now apply samples_of_replicate).
    assert (Hfull : Forall full_packet (replicate n one)).
    { apply Forall_replicate.
      repeat split; simpl; [lia | lia | eexists; reflexivity]. }
    unfold read_scan_data.
    destruct (Z.eqb_spec rate 0) as [|_]; [contradiction|]. simpl bulk_in.
    rewrite read_scan_loop_full_packets;
      [| exact Hfull | rewrite Hs; simpl; rewrite length_replicate; lia].
    rewrite Hs. simpl.
    destruct (Z.leb_spec (Z.of_nat 4) (bulk_packet_size dev)); [|lia]. simpl.
    match goal with
    | |- context [length_ <=? ?m] => destruct (Z.leb_spec length_ m) as [_|Hlt]
    end.
    + eexists _, _. split; [reflexivity|].
      rewrite length_app, length_replicate. simpl. lia.
    + rewrite length_app, length_replicate in Hlt. simpl in Hlt. lia.
  - intros s data s' H Hreach. unfold read_scan_data in H.
    destruct (Z.eqb_spec rate 0) as [|_]; [contradiction|].
    destruct (read_scan_loop length_ _ (bulk_in s) []) as [r rest] eqn:E.
    inversion H; subst.
    eapply read_scan_loop_overshoot; [| exact E | exact Hreach]. simpl. lia.
Qed.

(** *** The calibration cache *)

Lemma float_after_eq_value reply x (s : session F) :
  calib_value reply = Some x -> float_after_eq reply s = (Ok x, s).
Proof.
  unfold calib_value, float_after_eq.
  destruct (split_eq reply) as [|a [|piece l]]; try discriminate.
  now intros ->.
Qed.

Lemma get_calib_data_answered chan reply1 reply2 slope offset (s : session F) :
  accepted (sent s) (slope_query chan) reply1 ->
  calib_value (rstrip_nul reply1) = Some slope ->
  accepted (sent s ++ [wire (slope_query chan)]) (offset_query chan) reply2 ->
  calib_value (rstrip_nul reply2) = Some offset ->
  get_calib_data chan s
  = (Ok (slope, offset),
     set_sent (sent s ++ [wire (slope_query chan); wire (offset_query chan)]) s).
Proof.
  intros H1 V1 H2 V2. unfold get_calib_data.
  fold (slope_query chan) (offset_query chan).
  rewrite (bind_Ok _ _ _ _ _ (send_message_accepted _ _ _ H1)).
  rewrite (bind_Ok _ _ _ _ _ (float_after_eq_value _ _ _ V1)).
  rewrite (bind_Ok _ _ _ _ _
             (send_message_accepted _ _
                (set_sent (sent s ++ [wire (slope_query chan)]) s) H2)).
  rewrite (bind_Ok _ _ _ _ _ (float_after_eq_value _ _ _ V2)).
  unfold ret, set_sent. simpl. now rewrite <- app_assoc.
Qed.

(** C9. For a key that is not in the cache, a device that answers the slope
    and the offset query with parsable values receives exactly these two
    queries, the pair is stored under the key and returned; looking the same
    key up again returns the stored pair and leaves the session, its wire
    log included, as it is.  A key that is in the cache costs no command. *)
Theorem cached_calib_queries_once :
  forall (chan : Z) (mode vrange_code : string) (s : session F),
    let key : calib_key := (chan, mode, vrange_code) in
    (forall reply1 reply2 slope offset,
       calib_data s !! key = None ->
       accepted (sent s) (slope_query chan) reply1 ->
       calib_value (rstrip_nul reply1) = Some slope ->
       accepted (sent s ++ [wire (slope_query chan)]) (offset_query chan) reply2 ->
       calib_value (rstrip_nul reply2) = Some offset ->
       let s' :=
         set_calib_data (<[key := (slope, offset)]> (calib_data s))
           (set_sent
              (sent s ++ [wire (slope_query chan); wire (offset_query chan)]) s)
       in
       cached_calib chan mode vrange_code s = (Ok (slope, offset), s') /\
       cached_calib chan mode vrange_code s' = (Ok (slope, offset), s')) /\
    (forall cal,
       calib_data s !! key = Some cal ->
       cached_calib chan mode vrange_code s = (Ok cal, s)).
Proof.
  intros chan mode vrange_code s key.
  assert (Hit : forall (t : session F) cal,
            calib_data t !! key = Some cal ->
            cached_calib chan mode vrange_code t = (Ok cal, t)).
  { intros t cal Hc. unfold cached_calib, bind, get, ret. fold key.
    destruct (decide (is_Some (calib_data t !! key))) as [_|n].
    - now rewrite Hc.
    - destruct n. now exists cal. }
  split; [|apply Hit].
  intros reply1 reply2 slope offset Hmiss H1 V1 H2 V2 s'. split.
  - unfold cached_calib. fold key. unfold bind at 1. unfold get at 1.
    cbv beta iota.
    destruct (decide (is_Some (calib_data s !! key))) as [[c Hc]|_];
      [rewrite Hmiss in Hc; discriminate|].
    rewrite (bind_Ok _ _ _ _ _
               (bind_Ok _ _ _ _ _
                  (get_calib_data_answered _ _ _ _ _ _ H1 V1 H2 V2))).
    unfold bind, get, modify. simpl. rewrite lookup_insert_eq. reflexivity.
  - apply Hit. subst s'. simpl. apply lookup_insert_eq.
Qed.

(** *** Deinterleaving *)

Lemma py_slice_from_nonzero {A} (start step : Z) (l : list A) :
  step <> 0 -> is_Some (py_slice_from start step l).
Proof.
  intros H. unfold py_slice_from.
  destruct (Z.eqb_spec step 0); [contradiction | eauto].
Qed.

(** Without scaling the loop over the channels only fills the dict. *)
Lemma for_each_read_channel_unscaled data nchannels vrange mode vrange_code
    (chans : list Z) :
  nchannels <> 0 ->
  forall out (s : session F),
  exists out',
    for_each chans
      (read_channel data nchannels vrange mode vrange_code false) out s
    = (Ok out', s).
Proof.
  intros Hn. induction chans as [|c chans IH]; intros out s; simpl.
  - eexists. reflexivity.
  - unfold bind, read_channel.
    destruct (py_slice_from_nonzero c nchannels data Hn) as [column ->].
    simpl. apply IH.
Qed.

Lemma split_channels_unscaled data nsamples lowchan highchan vrange mode
    vrange_code (s : session F) :
  1 + highchan - lowchan <> 0 ->
  exists r,
    split_channels data nsamples lowchan highchan vrange mode vrange_code
      false s = (Ok r, s).
Proof.
  intros Hn. unfold split_channels.
  destruct (Z.eqb_spec (1 + highchan - lowchan) 0); [contradiction|].
  unfold bind.
  destruct (for_each_read_channel_unscaled data (1 + highchan - lowchan)
              vrange mode vrange_code
              (py_range lowchan (Z.max (lowchan + 1) highchan)) Hn ∅ s)
    as [out ->].
  destruct (map_to_list out) as [|[k a] [|]]; eexists; reflexivity.
Qed.

(** C2 (what the code does).  When [highchan] is the channel after
    [lowchan], so that two channels are scanned, the loop
    [range(lowchan, max(lowchan + 1, highchan))] visits [lowchan] only: the
    result is one array, the slice [data[lowchan::2]], and no dict; from the
    flat buffer [a0,b0,a1,b1,a2,b2] of channels 0 and 1 the samples
    [b0,b1,b2] of channel 1 are not returned. *)
Theorem split_channels_adjacent_pair :
  forall (data : list Z) (nsamples lowchan vrange : Z)
         (mode vrange_code : string) (s : session F),
    split_channels data nsamples lowchan (lowchan + 1) vrange mode
      vrange_code false s
    = (Ok (Single (IntArray (default [] (py_slice_from lowchan 2 data)))), s)
    /\
    forall a0 b0 a1 b1 a2 b2 : Z,
      split_channels [a0; b0; a1; b1; a2; b2] 6 0 1 vrange mode
        vrange_code false s
      = (Ok (Single (IntArray [a0; a1; a2])), s).
Proof.
  intros data nsamples lowchan vrange mode vrange_code s.
  assert (Hgen : forall data' nsamples' lowchan',
    split_channels data' nsamples' lowchan' (lowchan' + 1) vrange mode
      vrange_code false s
    = (Ok (Single (IntArray (default [] (py_slice_from lowchan' 2 data')))),
       s)).
  { intros data' nsamples' lowchan'. unfold split_channels.
    replace (1 + (lowchan' + 1) - lowchan') with 2 by lia.
    rewrite Z.max_id. unfold py_range.
    replace (lowchan' + 1 - lowchan') with 1 by lia.
    change (seqZ lowchan' 1) with [0 + lowchan']. rewrite Z.add_0_l.
    cbn [Z.eqb for_each]. unfold bind, read_channel.
    destruct (py_slice_from_nonzero lowchan' 2 data') as [column ->];
      [discriminate|].
    cbn [ret default]. rewrite insert_empty, map_to_list_singleton.
    reflexivity. }
  split; [apply Hgen|].
  intros a0 b0 a1 b1 a2 b2. apply (Hgen [a0; b0; a1; b1; a2; b2] 6 0).
Qed.

(** *** The retry workaround of [simple_read] *)

Section Retry.

Variables frequency nsamples lowchan highchan vrange : Z.
Variable mode : string.
Variable scale : bool.

Lemma short_readsb_spec k : forall s,
  short_readsb frequency nsamples lowchan highchan vrange mode k s = true ->
  short_reads frequency nsamples lowchan highchan vrange mode k s.
Proof.
  induction k as [|k IH]; intros s H; simpl in *;
    destruct (attempt frequency nsamples lowchan highchan vrange mode s)
      as [[raw|e] s1]; try discriminate;
    apply andb_true_iff in H as [Hlen Hk];
    exists raw, s1; (split; [reflexivity|]);
    (split; [apply Z.eqb_neq; now destruct (_ =? _)|]);
    [exact I | now apply IH].
Qed.

Lemma scan_starts_app l1 l2 :
  scan_starts (l1 ++ l2) = (scan_starts l1 + scan_starts l2)%nat.
Proof. induction l1 as [|m l1 IH]; simpl; [reflexivity | rewrite IH; lia]. Qed.

Lemma scan_starts_config_messages :
  scan_starts
    (wire <$> config_messages frequency nsamples lowchan highchan vrange mode)
  = 0%nat.
Proof. reflexivity. Qed.

(** [simple_read], one level of its recursion at a time. *)
Lemma simple_read_unfold fuel (s : session F) :
  simple_read (S fuel) frequency nsamples lowchan highchan vrange mode scale s
  = match attempt frequency nsamples lowchan highchan vrange mode s with
    | (Raise e, s1) => (Raise e, s1)
    | (Ok raw, s1) =>
        if negb (Z.of_nat (length raw) =? nsamples)
           && (read_recursion_depth s1 <? 10)%nat
        then simple_read fuel frequency nsamples lowchan highchan vrange mode
               scale (retry_session raw s1)
        else split_channels raw nsamples lowchan highchan vrange mode
               ("BIP" +:+ fmt_d vrange +:+ "V") scale
               (set_read_recursion_depth 0 s1)
    end.
Proof.
  cbn [simple_read]. unfold attempt, stop, bind.
  destruct (configure_read _ _ _ _ _ _ s) as [[[]|?] t1]; [|reflexivity].
  destruct (send_message "AISCAN:START" _) as [[?|?] t2]; [|reflexivity].
  destruct (read_scan_data _ _ _) as [[raw|?] t3]; [|reflexivity].
  destruct (send_message "AISCAN:STOP" _) as [[?|?] s1]; [|reflexivity].
  unfold flush_input_data, retry_session, ret, get, modify. cbv beta iota.
  destruct (Z.of_nat (length raw) =? nsamples); cbn [negb andb];
    [reflexivity|].
  destruct (read_recursion_depth s1 <? 10)%nat; [|reflexivity].
  cbv beta iota zeta.
  match goal with
  | |- context [simple_read fuel ?a ?b ?c ?d ?e ?f ?g ?t] =>
      destruct (simple_read fuel a b c d e f g t) as [[?|?] ?]
  end; reflexivity.
Qed.

Lemma configure_read_Ok_sent (s s' : session F) :
  configure_read frequency nsamples lowchan highchan vrange mode s
    = (Ok tt, s') ->
  scan_starts (sent s') = scan_starts (sent s) /\
  read_recursion_depth s' = read_recursion_depth s.
Proof.
  rewrite configure_read_unfold.
  destruct (decide _) as [_|_]; intros H; [now inversion H|].
  apply bind_Ok_inv in H as ([] & s1 & Hs & H).
  apply send_all_Ok_inv in Hs as [_ ->]. inversion H; subst.
  cbn [sent read_recursion_depth set_conf set_sent].
  rewrite scan_starts_app. split; [|reflexivity].
  transitivity (scan_starts (sent s) + 0)%nat; [|lia].
  f_equal.
Qed.

(** An attempt that goes through starts one scan and leaves the retry
    counter alone. *)
Lemma attempt_Ok raw (s s1 : session F) :
  attempt frequency nsamples lowchan highchan vrange mode s = (Ok raw, s1) ->
  scan_starts (sent s1) = S (scan_starts (sent s)) /\
  read_recursion_depth s1 = read_recursion_depth s.
Proof.
  unfold attempt, stop. intros H.
  apply bind_Ok_inv in H as ([] & t1 & Hc & H).
  apply configure_read_Ok_sent in Hc as [Hc1 Hc2].
  apply bind_Ok_inv in H as (r1 & t2 & Hstart & H).
  apply send_message_Ok_inv in Hstart as [-> _].
  apply bind_Ok_inv in H as (raw' & t3 & Hread & H).
  assert (Hs3 : sent t3 = sent t1 ++ [wire "AISCAN:START"] /\
                read_recursion_depth t3 = read_recursion_depth t1).
  { unfold read_scan_data in Hread.
    destruct (frequency =? 0); [discriminate|].
    destruct (read_scan_loop _ _ _ _) as [r rest].
    inversion Hread; subst. split; reflexivity. }
  destruct Hs3 as [Hs3 Hd3].
  apply bind_Ok_inv in H as ([] & t4 & Hstop & H).
  apply bind_Ok_inv in Hstop as (r2 & t5 & Hstop & Hret).
  apply send_message_Ok_inv in Hstop as [-> _].
  inversion Hret; subst t4. inversion H; subst. simpl.
  rewrite Hs3, !scan_starts_app, Hc1, Hd3. simpl. split; lia.
Qed.

Lemma retry_session_fields raw (s : session F) :
  sent (retry_session raw s) = sent s /\
  read_recursion_depth (retry_session raw s) = S (read_recursion_depth s).
Proof. unfold retry_session. simpl. split; [reflexivity | lia]. Qed.

(** The recursion of [simple_read] under persistent short reads: from a
    counter that is [j] below its limit there are [j] retries. *)
Lemma simple_read_retries (j : nat) : forall fuel (s : session F),
  (read_recursion_depth s + j = 10)%nat ->
  (j < fuel)%nat ->
  short_reads frequency nsamples lowchan highchan vrange mode j s ->
  exists raw s_last,
    attempt frequency nsamples lowchan highchan vrange mode
      (after_retries frequency nsamples lowchan highchan vrange mode j s)
    = (Ok raw, s_last) /\
    Z.of_nat (length raw) <> nsamples /\
    scan_starts (sent s_last) = (scan_starts (sent s) + S j)%nat /\
    simple_read fuel frequency nsamples lowchan highchan vrange mode scale s
    = split_channels raw nsamples lowchan highchan vrange mode
        ("BIP" +:+ fmt_d vrange +:+ "V") scale
        (set_read_recursion_depth 0 s_last).
Proof.
  induction j as [|j IH]; intros fuel s Hdepth Hfuel Hshort;
    (destruct fuel as [|fuel]; [lia|]);
    destruct Hshort as (raw & s1 & Hatt & Hlen & Hnext);
    destruct (attempt_Ok _ _ _ Hatt) as [Hstarts Hd];
    rewrite simple_read_unfold, Hatt;
    (destruct (Z.eqb_spec (Z.of_nat (length raw)) nsamples);
       [contradiction|]); cbn [negb andb].
  - destruct (Nat.ltb_spec (read_recursion_depth s1) 10); [lia|].
    exists raw, s1. cbn [after_retries].
    repeat split; [exact Hatt | exact Hlen | lia].
  - destruct (Nat.ltb_spec (read_recursion_depth s1) 10); [|lia].
    destruct (retry_session_fields raw s1) as [Hsent Hdep].
    destruct (IH fuel (retry_session raw s1)) as
      (raw' & s_last & Hatt' & Hlen' & Hstarts' & Hrun);
      [lia | lia | exact Hnext |].
    exists raw', s_last. cbn [after_retries]. rewrite Hatt.
    repeat split; [exact Hatt' | exact Hlen' | | exact Hrun].
    rewrite Hstarts', Hsent, Hstarts. lia.
Qed.

(** C3 (as the code has it).  From a session whose retry counter is 0, when
    the attempt and the ten that follow it each return a count of items
    different from [nsamples], [simple_read] makes exactly eleven attempts,
    the first and ten retries: eleven scans are started, and the result is
    that of deinterleaving the data of the eleventh attempt, with the
    counter back at 0.  No exception comes from the retries, the recursion
    limit is not met with a stack for eleven calls, and when no scaling is
    asked for the call returns a value. *)
Theorem simple_read_persistent_short_read :
  forall (fuel : nat) (s : session F),
    read_recursion_depth s = 0%nat ->
    (11 <= fuel)%nat ->
    short_reads frequency nsamples lowchan highchan vrange mode 10 s ->
    exists raw s_last,
      attempt frequency nsamples lowchan highchan vrange mode
        (after_retries frequency nsamples lowchan highchan vrange mode 10 s)
      = (Ok raw, s_last) /\
      Z.of_nat (length raw) <> nsamples /\
      scan_starts (sent s_last) = (scan_starts (sent s) + 11)%nat /\
      simple_read fuel frequency nsamples lowchan highchan vrange mode scale s
      = split_channels raw nsamples lowchan highchan vrange mode
          ("BIP" +:+ fmt_d vrange +:+ "V") scale
          (set_read_recursion_depth 0 s_last) /\
      (scale = false -> 1 + highchan - lowchan <> 0 ->
       exists r,
         simple_read fuel frequency nsamples lowchan highchan vrange mode
           scale s
         = (Ok r, set_read_recursion_depth 0 s_last)).
Proof.
  intros fuel s Hdepth Hfuel Hshort.
  destruct (simple_read_retries 10 fuel s) as
    (raw & s_last & Hatt & Hlen & Hstarts & Hrun); [lia | lia | exact Hshort |].
  exists raw, s_last. repeat split; try assumption.
  intros Hscale Hn. rewrite Hrun, Hscale.
  now apply split_channels_unscaled.
Qed.

End Retry.

(** * Further properties of the methods *)

(** ** Strings on the wire *)

Lemma upper_app (a b : string) : upper (a +:+ b) = upper a +:+ upper b.
Proof. induction a as [|c a IH]; simpl; [reflexivity | now rewrite IH]. Qed.

Lemma upper_length (s : string) : String.length (upper s) = String.length s.
Proof. induction s as [|c s IH]; simpl; [reflexivity | now rewrite IH]. Qed.

Lemma app_length_string (a b : string) :
  String.length (a +:+ b) = (String.length a + String.length b)%nat.
Proof. induction a as [|c a IH]; simpl; [reflexivity | now rewrite IH]. Qed.

Lemma wire_upper (m m' : string) : upper m = upper m' -> wire m = wire m'.
Proof. intros H. unfold wire. now rewrite !upper_app, H. Qed.

(** X1. Commands are case-insensitive at [send_message]: two messages with
    the same upper-case form are the same call, with the same bytes on the
    wire, the same result and the same session afterwards. *)
Theorem send_message_case_insensitive :
  forall (m m' : string) (s : session F),
    upper m = upper m' ->
    wire m = wire m' /\ send_message m s = send_message m' s.
Proof.
  intros m m' s H. split; [now apply wire_upper|].
  assert (Hlen : String.length (m +:+ String NUL EmptyString)
                 = String.length (m' +:+ String NUL EmptyString)).
  { rewrite !app_length_string.
    now rewrite <- (upper_length m), H, upper_length. }
  unfold send_message. fold (wire m) (wire m').
  now rewrite (wire_upper m m' H), Hlen.
Qed.

(** X2. The failures of [send_message], for a message of 7-bit characters.
    A [USBError] of the OUT transfer and a short write both become an
    [IOError], and the errno is lost; a [USBError] of the IN transfer
    reaches the caller as it is.  In each case the message has gone out and
    nothing else of the session has changed. *)
Theorem send_message_failures :
  forall (m : string) (s : session F),
    is_ascii (wire m) = true ->
    let logged := set_sent (sent s ++ [wire m]) s in
    let size := Z.of_nat (String.length (m +:+ String NUL EmptyString)) in
    (forall errno,
       ctrl_out dev (sent s) (wire m) = UsbErr errno ->
       send_message m s
       = (Raise (IOError "Send failed, possibly wrong command?"), logged)) /\
    (forall written,
       ctrl_out dev (sent s) (wire m) = UsbOk written ->
       written <> size ->
       send_message m s = (Raise (IOError "Could not send message"), logged)) /\
    (forall errno,
       ctrl_out dev (sent s) (wire m) = UsbOk size ->
       ctrl_in dev (sent s ++ [wire m]) = UsbErr errno ->
       send_message m s = (Raise (USBError errno), logged)).
Proof.
  intros m s Hw logged size. unfold send_message, ascii_codec.
  fold (wire m). rewrite Hw. unfold bind, get, modify, raise. simpl.
  repeat split.
  - intros errno ->. reflexivity.
  - intros written -> Hne. fold size.
    destruct (Z.eqb_spec written size); [contradiction | reflexivity].
  - intros errno -> ->. fold size. now rewrite Z.eqb_refl.
Qed.

Lemma rstrip_nul_padding (n : nat) : rstrip_nul (nul_padding n) = EmptyString.
Proof. induction n as [|n IH]; simpl; [reflexivity | now rewrite IH]. Qed.

Lemma rstrip_nul_app_padding (text : string) (n : nat) :
  rstrip_nul (text +:+ nul_padding n) = rstrip_nul text.
Proof.
  induction text as [|c text IH]; simpl.
  - apply rstrip_nul_padding.
  - now rewrite IH.
Qed.

Lemma rstrip_nul_id (text : string) :
  last_char text <> Some NUL -> rstrip_nul text = text.
Proof.
  induction text as [|c text IH]; simpl; [reflexivity|].
  destruct text as [|c' text'].
  - intros H. simpl. destruct (Ascii.eqb_spec c NUL); [subst; now destruct H|].
    reflexivity.
  - intros H. rewrite IH by exact H. reflexivity.
Qed.

Lemma is_ascii_app (a b : string) :
  is_ascii (a +:+ b) = is_ascii a && is_ascii b.
Proof.
  induction a as [|c a IH]; simpl; [reflexivity|].
  now rewrite IH, andb_assoc.
Qed.

Lemma is_ascii_padding (n : nat) : is_ascii (nul_padding n) = true.
Proof. induction n as [|n IH]; simpl; [reflexivity | exact IH]. Qed.

(** X3. The padding of a reply is removed: when the device takes the
    message and answers 7-bit [text] followed by any number of NUL bytes,
    [send_message] returns [text] itself, provided [text] does not end in a
    NUL. *)
Theorem send_message_strips_padding :
  forall (m text : string) (n : nat) (s : session F),
    is_ascii (wire m) = true ->
    ctrl_out dev (sent s) (wire m)
      = UsbOk (Z.of_nat (String.length (m +:+ String NUL EmptyString))) ->
    ctrl_in dev (sent s ++ [wire m]) = UsbOk (text +:+ nul_padding n) ->
    is_ascii text = true ->
    last_char text <> Some NUL ->
    send_message m s = (Ok text, set_sent (sent s ++ [wire m]) s).
Proof.
  intros m text n s Hw Hout Hin Htext Hlast.
  rewrite (send_message_accepted m (text +:+ nul_padding n) s).
  - now rewrite rstrip_nul_app_padding, rstrip_nul_id.
  - repeat split; try assumption.
    now rewrite is_ascii_app, Htext, is_ascii_padding.
Qed.

(** ** Calibration replies *)

Lemma split_eq_no_eq_sign (value : string) :
  no_eq_sign value = true -> split_eq value = [value].
Proof.
  induction value as [|c value IH]; simpl; [reflexivity|].
  destruct (Ascii.eqb c "="); simpl; [discriminate|].
  intros H. now rewrite IH.
Qed.

Lemma split_eq_key (key rest : string) :
  no_eq_sign key = true ->
  split_eq (key +:+ String "=" rest) = key :: split_eq rest.
Proof.
  induction key as [|c key IH]; simpl; [reflexivity|].
  destruct (Ascii.eqb c "="); simpl; [discriminate|].
  intros H. now rewrite IH.
Qed.

(** X4. A reply [KEY=VALUE] with no further [=] is read as [float(VALUE)];
    a reply without any [=], such as a bare acknowledgement, is an
    [IndexError]. *)
Theorem float_after_eq_key_value :
  forall (key value : string) (s : session F),
    no_eq_sign key = true ->
    no_eq_sign value = true ->
    float_after_eq (key +:+ String "=" value) s
    = match float_of_string value with
      | Some x => (Ok x, s)
      | None => (Raise ValueError, s)
      end /\
    float_after_eq key s = (Raise IndexError, s).
Proof.
  intros key value s Hk Hv. unfold float_after_eq. split.
  - rewrite split_eq_key, split_eq_no_eq_sign by assumption.
    destruct (float_of_string value); reflexivity.
  - now rewrite split_eq_no_eq_sign.
Qed.

(** X5. When the reply to the slope query carries no [=], [get_calib_data]
    raises [IndexError] and the offset query is never sent: the slope query
    is the only message that has gone out. *)
Theorem get_calib_data_bare_reply :
  forall (chan : Z) (reply : string) (s : session F),
    accepted (sent s) (slope_query chan) reply ->
    no_eq_sign (rstrip_nul reply) = true ->
    get_calib_data chan s
    = (Raise IndexError, set_sent (sent s ++ [wire (slope_query chan)]) s).
Proof.
  intros chan reply s Hacc Hno. unfold get_calib_data.
  fold (slope_query chan).
  rewrite (bind_Ok _ _ _ _ _ (send_message_accepted _ _ _ Hacc)).
  apply bind_Raise. unfold float_after_eq.
  now rewrite split_eq_no_eq_sign.
Qed.

Lemma float_after_eq_preserves {X} (f : session F -> X) reply :
  preserves f (float_after_eq reply).
Proof.
  intros s r s' H. unfold float_after_eq in H.
  destruct (split_eq reply) as [|a [|piece l]];
    try (now inversion H).
  destruct (float_of_string piece); now inversion H.
Qed.

Lemma get_calib_data_preserves {X} (f : session F -> X) chan :
  (forall v s, f (set_sent v s) = f s) -> preserves f (get_calib_data chan).
Proof.
  intros Hf. unfold get_calib_data.
  repeat first
    [ apply send_message_preserves; exact Hf
    | apply float_after_eq_preserves
    | apply preserves_ret
    | apply preserves_bind; [|intros ?] ].
Qed.

(** *** Which exceptions a method can raise *)

Lemma never_raises_ret {A} e0 (a : A) : never_raises e0 (@ret F A a).
Proof. intros s e s' H. inversion H. Qed.

Lemma never_raises_raise {A} e0 e1 :
  e1 <> e0 -> never_raises e0 (@raise F A e1).
Proof. intros Hne s e s' H. inversion H; subst. exact Hne. Qed.

Lemma never_raises_get e0 : never_raises e0 (@get F).
Proof. intros s e s' H. inversion H. Qed.

Lemma never_raises_modify e0 g : never_raises e0 (@modify F g).
Proof. intros s e s' H. inversion H. Qed.

Lemma never_raises_bind {A B} e0 (m : M F A) (k : A -> M F B) :
  never_raises e0 m -> (forall a, never_raises e0 (k a)) ->
  never_raises e0 (bind m k).
Proof.
  intros Hm Hk s e s' H.
  apply bind_Raise_inv in H as [H | (a & s1 & _ & H)].
  - eapply Hm, H.
  - eapply Hk, H.
Qed.

Lemma never_raises_for_each {A B} e0 (l : list A) (body : A -> B -> M F B) :
  (forall x acc, never_raises e0 (body x acc)) ->
  forall acc, never_raises e0 (for_each l body acc).
Proof.
  intros Hb. induction l as [|x l IH]; intros acc; simpl.
  - apply never_raises_ret.
  - apply never_raises_bind; [apply Hb | intros a; apply IH].
Qed.

Lemma send_message_never_raises e0 message :
  internal_only e0 -> never_raises e0 (send_message message).
Proof.
  intros He s e s' H Heq. subst e.
  unfold send_message, ascii_codec, bind, get, modify, raise, ret in H.
  simpl in H.
  repeat match type of H with
         | context [match ?x with _ => _ end] => destruct x
         | context [if ?x then _ else _] => destruct x
         end;
    inversion H; subst; destruct He; discriminate.
Qed.

Lemma float_after_eq_never_raises e0 reply :
  internal_only e0 -> never_raises e0 (float_after_eq reply).
Proof.
  intros He s e s' H Heq. subst e. unfold float_after_eq, raise, ret in H.
  repeat match type of H with
         | context [match ?x with _ => _ end] => destruct x
         end;
    inversion H; subst; destruct He; discriminate.
Qed.

Lemma get_calib_data_never_raises e0 chan :
  internal_only e0 -> never_raises e0 (get_calib_data chan).
Proof.
  intros He. unfold get_calib_data.
  repeat first
    [ apply send_message_never_raises; exact He
    | apply float_after_eq_never_raises; exact He
    | apply never_raises_ret
    | apply never_raises_bind; [|intros ?] ].
Qed.

(** X6. A calibration lookup that fails caches nothing: whenever
    [cached_calib] raises, the key was not in [self.calib_data],
    [self.calib_data] is what it was, and the exception is never the
    [KeyError] of the lookup that follows the insertion. *)
Theorem cached_calib_failure_caches_nothing :
  forall (chan : Z) (mode vrange_code : string) (s s' : session F) (e : exn),
    cached_calib chan mode vrange_code s = (Raise e, s') ->
    calib_data s' = calib_data s /\ e <> KeyError /\
    calib_data s !! (chan, mode, vrange_code) = None.
Proof.
  intros chan mode vrange_code s s' e. unfold cached_calib.
  unfold bind at 1. unfold get at 1. cbv beta iota.
  match goal with
  | |- context [decide ?P] => destruct (decide P) as [[c Hc]|Hmiss]
  end.
  - unfold bind, ret, get. simpl. rewrite Hc. intros H. inversion H.
  - assert (Hnone : calib_data s !! (chan, mode, vrange_code) = None).
    { destruct (calib_data s !! (chan, mode, vrange_code)) eqn:E;
        [destruct Hmiss; eauto | reflexivity]. }
    unfold bind at 1. unfold bind at 1.
    destruct (get_calib_data chan s) as [[c|e0] s1] eqn:Hget.
    + unfold modify, bind, get. simpl. rewrite lookup_insert_eq.
      intros H. inversion H.
    + intros H. inversion H; subst.
      split; [|split; [|exact Hnone]].
      * eapply (get_calib_data_preserves calib_data); [reflexivity | exact Hget].
      * eapply (get_calib_data_never_raises KeyError);
          [left; reflexivity | exact Hget].
Qed.

(** ** The bulk reader *)

Lemma le16_range (lo hi : byte) : 0 <= le16 lo hi < 65536.
Proof.
  unfold le16.
  pose proof (Byte.to_N_bounded lo). pose proof (Byte.to_N_bounded hi). lia.
Qed.

Lemma fromstring_range_le (n : nat) : forall p values,
  (length p <= n)%nat -> fromstring p = Some values ->
  Forall (fun v => 0 <= v < 65536) values.
Proof.
  induction n as [|n IH]; intros p values Hn H.
  - destruct p; [|simpl in Hn; lia]. inversion H. constructor.
  - destruct p as [|lo [|hi p]]; simpl in *.
    + inversion H. constructor.
    + discriminate.
    + destruct (fromstring p) as [vs|] eqn:E; [|discriminate].
      inversion H; subst. constructor; [apply le16_range|].
      apply (IH p); [lia | exact E].
Qed.

Lemma read_scan_loop_range length_ timeout : forall future data out rest,
  Forall (fun v => 0 <= v < 65536) data ->
  read_scan_loop length_ timeout future data = (Ok out, rest) ->
  Forall (fun v => 0 <= v < 65536) out.
Proof.
  induction future as [|o future IH]; intros data out rest Hdata H;
    simpl in H.
  - now inversion H; subst.
  - destruct (ep_deliver (bulk_packet_size dev) timeout o)
      as [packet|errno].
    + destruct (length packet =? 0)%nat; [now inversion H; subst|].
      destruct (fromstring packet) as [values|] eqn:Hv; [|discriminate].
      assert (Hall : Forall (fun v => 0 <= v < 65536) (data ++ values)).
      { apply Forall_app. split; [exact Hdata|].
        eapply fromstring_range_le; [reflexivity | exact Hv]. }
      destruct (length_ <=? Z.of_nat (length (data ++ values)));
        [now inversion H; subst | eapply IH; eauto].
    + destruct (decide (errno = Some ETIMEDOUT)); [|discriminate].
      now inversion H; subst.
Qed.

(** X7. Every item [read_scan_data] returns is an unsigned 16-bit count,
    whatever the device sends. *)
Theorem read_scan_data_items_16bit :
  forall (length_ rate : Z) (s s' : session F) (data : list Z),
    read_scan_data length_ rate s = (Ok data, s') ->
    Forall (fun v => 0 <= v < 65536) data.
Proof.
  intros length_ rate s s' data H. unfold read_scan_data in H.
  destruct (rate =? 0); [discriminate|].
  destruct (read_scan_loop _ _ _ _) as [r rest] eqn:E.
  inversion H; subst.
  eapply read_scan_loop_range; [constructor | exact E].
Qed.

Lemma samples_of_app (ps qs : list (list byte)) :
  samples_of (ps ++ qs) = samples_of ps ++ samples_of qs.
Proof. unfold samples_of. now rewrite flat_map_app. Qed.

(** X8. The read that completes a scan: after full packets that leave the
    count asked for unreached, the full packet that reaches it ends the
    loop; the items of all these packets are returned, in order, and the
    reads that follow are left for later. *)
Theorem read_scan_data_completes :
  forall (length_ rate : Z) (s : session F) (pre : list (list byte))
         (p : list byte) (rest : list (usb_result (list byte))),
    rate <> 0 ->
    Forall full_packet (pre ++ [p]) ->
    Z.of_nat (length (samples_of pre)) < length_ ->
    length_ <= Z.of_nat (length (samples_of (pre ++ [p]))) ->
    bulk_in s = (UsbOk <$> pre) ++ UsbOk p :: rest ->
    read_scan_data length_ rate s
    = (Ok (samples_of (pre ++ [p])), set_bulk_in rest s).
Proof.
  intros length_ rate s pre p rest Hrate Hfull Hlt Hge Hin.
  apply Forall_app in Hfull as [Hpre Hp].
  inversion Hp as [|? ? (Hpos & Hfit & [values Hv]) _]; subst.
  unfold read_scan_data. destruct (Z.eqb_spec rate 0); [contradiction|].
  assert (Hs : samples_of (pre ++ [p]) = samples_of pre ++ values).
  { rewrite samples_of_app. f_equal. unfold samples_of. simpl.
    rewrite Hv. simpl. apply app_nil_r. }
  rewrite Hs in *. rewrite Hin. cbv zeta.
  rewrite read_scan_loop_full_packets by assumption. simpl.
  destruct (Z.leb_spec (Z.of_nat (length p)) (bulk_packet_size dev)); [|lia].
  destruct (Nat.eqb_spec (length p) 0); [lia|].
  rewrite Hv.
  destruct (Z.leb_spec length_ (Z.of_nat (length (samples_of pre ++ values))));
    [reflexivity | lia].
Qed.

Lemma fromstring_odd_le (n : nat) : forall p,
  (length p <= n)%nat -> Nat.odd (length p) = true -> fromstring p = None.
Proof.
  induction n as [|n IH]; intros p Hn Hodd.
  - destruct p; [discriminate | simpl in Hn; lia].
  - destruct p as [|lo [|hi p]]; simpl in *.
    + discriminate.
    + reflexivity.
    + rewrite (IH p); [reflexivity | lia |].
      now rewrite Nat.odd_succ, Nat.even_succ in Hodd.
Qed.

(** X9. A packet with an odd number of bytes that fits the buffer makes
    [read_scan_data] raise [ValueError]: the items of the packets before it
    are not returned. *)
Theorem read_scan_data_odd_packet :
  forall (length_ rate : Z) (s : session F) (pre : list (list byte))
         (p : list byte) (rest : list (usb_result (list byte))),
    rate <> 0 ->
    Forall full_packet pre ->
    Z.of_nat (length (samples_of pre)) < length_ ->
    Nat.odd (length p) = true ->
    Z.of_nat (length p) <= bulk_packet_size dev ->
    bulk_in s = (UsbOk <$> pre) ++ UsbOk p :: rest ->
    read_scan_data length_ rate s = (Raise ValueError, set_bulk_in rest s).
Proof.
  intros length_ rate s pre p rest Hrate Hpre Hlt Hodd Hfit Hin.
  unfold read_scan_data. destruct (Z.eqb_spec rate 0); [contradiction|].
  rewrite Hin. cbv zeta.
  rewrite read_scan_loop_full_packets by assumption. simpl.
  destruct (Z.leb_spec (Z.of_nat (length p)) (bulk_packet_size dev)); [|lia].
  destruct (Nat.eqb_spec (length p) 0) as [E|_];
    [rewrite E in Hodd; discriminate|].
  now rewrite (fromstring_odd_le (length p)).
Qed.

Lemma flush_loop_full_packets (pre : list (list byte)) : forall tail,
  Forall full_packet pre ->
  flush_loop ((UsbOk <$> pre) ++ tail) = flush_loop tail.
Proof.
  induction pre as [|p pre IH]; intros tail Hfull; simpl; [reflexivity|].
  inversion Hfull as [|? ? (Hpos & Hfit & _) Hrest]; subst.
  destruct (Z.leb_spec (Z.of_nat (length p)) (bulk_packet_size dev)); [|lia].
  destruct (Nat.eqb_spec (length p) 0); [lia|]. now apply IH.
Qed.

Lemma flush_loop_suffix : forall future,
  exists consumed, future = consumed ++ flush_loop future.
Proof.
  induction future as [|o future [consumed IH]]; simpl.
  - now exists [].
  - destruct (ep_deliver (bulk_packet_size dev) 20 o) as [packet|errno].
    + destruct (length packet =? 0)%nat.
      * now exists [o].
      * exists (o :: consumed). simpl. now rewrite <- IH.
    + now exists [o].
Qed.

(** X10. [flush_input_data] never raises and only consumes input: it
    discards full packets up to and including the first read that fails,
    whatever the error, or that is empty, and everything when no such read
    comes. *)
Theorem flush_input_data_discards :
  forall (s : session F) (pre : list (list byte)),
    Forall full_packet pre ->
    (exists consumed,
       bulk_in s = consumed ++ flush_loop (bulk_in s) /\
       flush_input_data s = (Ok tt, set_bulk_in (flush_loop (bulk_in s)) s)) /\
    (forall o rest,
       (exists errno, ep_deliver (bulk_packet_size dev) 20 o = UsbErr errno) \/
       ep_deliver (bulk_packet_size dev) 20 o = UsbOk [] ->
       bulk_in s = (UsbOk <$> pre) ++ o :: rest ->
       flush_input_data s = (Ok tt, set_bulk_in rest s)) /\
    (bulk_in s = UsbOk <$> pre ->
     flush_input_data s = (Ok tt, set_bulk_in [] s)).
Proof.
  intros s pre Hfull. unfold flush_input_data, modify. repeat split.
  - destruct (flush_loop_suffix (bulk_in s)) as [consumed H].
    exists consumed. split; [exact H | reflexivity].
  - intros o rest Ho ->. rewrite flush_loop_full_packets by assumption.
    simpl. destruct Ho as [[errno ->] | ->]; reflexivity.
  - intros ->. rewrite <- (app_nil_r (UsbOk <$> pre)).
    now rewrite flush_loop_full_packets.
Qed.

(** ** Slices and channels *)

Lemma omap_lookup {A B} (f : A -> option B) (l : list A) :
  Forall (fun x => is_Some (f x)) l ->
  forall j : nat, omap f l !! j = l !! j ≫= f.
Proof.
  induction 1 as [|x l [y Hy] Hl IH]; intros j; simpl; [reflexivity|].
  rewrite Hy. destruct j as [|j]; simpl; [now rewrite Hy | apply IH].
Qed.

(** A slice with a start inside or after the list and a positive step
    holds the items at [start], [start + step], ... *)
Lemma py_slice_from_stride {A} (start step : Z) (l : list A) :
  0 <= start -> 0 < step ->
  exists r,
    py_slice_from start step l = Some r /\
    forall j : nat, r !! j = l !! Z.to_nat (start + Z.of_nat j * step).
Proof.
  intros Hstart Hstep. unfold py_slice_from.
  destruct (Z.eqb_spec step 0) as [|_]; [lia|].
  destruct (Z.ltb_spec start 0) as [|_]; [lia|].
  destruct (Z.ltb_spec step 0) as [|_]; [lia|].
  set (n := Z.of_nat (length l)).
  destruct (Z.leb_spec n start) as [Hout|Hin].
  - destruct (Z.ltb_spec n n) as [|_]; [lia|].
    eexists. split; [reflexivity|]. intros j. simpl.
    symmetry. apply lookup_ge_None. subst n. nia.
  - destruct (Z.ltb_spec start n) as [_|]; [|lia].
    set (q := (n - start - 1) / step).
    assert (Hq1 : step * q <= n - start - 1)
      by (apply Z.mul_div_le; lia).
    assert (Hq2 : n - start - 1 < step * (q + 1)).
    { pose proof (Z.mul_succ_div_gt (n - start - 1) step Hstep). fold q in H.
      lia. }
    assert (Hq0 : 0 <= q) by (apply Z.div_pos; lia).
    eexists. split; [reflexivity|]. intros j.
    rewrite omap_lookup.
    + destruct (Z.lt_ge_cases (Z.of_nat j) (q + 1)) as [Hj|Hj].
      * rewrite lookup_seqZ_lt by exact Hj. simpl. now rewrite Z.add_0_l.
      * rewrite lookup_seqZ_ge by exact Hj. simpl.
        symmetry. apply lookup_ge_None. subst n. nia.
    + apply Forall_seqZ. intros k Hk.
      apply lookup_lt_is_Some. subst n. nia.
Qed.

Lemma py_slice_from_step_1 {A} (start : Z) (l : list A) :
  0 <= start -> py_slice_from start 1 l = Some (drop (Z.to_nat start) l).
Proof.
  intros Hstart.
  destruct (py_slice_from_stride start 1 l Hstart) as (r & -> & Hr); [lia|].
  f_equal. apply list_eq. intros j. rewrite Hr, lookup_drop. f_equal. lia.
Qed.

(** X11. A scan of the single channel [c]: the result is one array, the
    buffer without its first [c] items; for channel 0 it is the whole
    buffer. *)
Theorem split_channels_single_channel :
  forall (data : list Z) (nsamples c vrange : Z) (mode vrange_code : string)
         (s : session F),
    0 <= c ->
    split_channels data nsamples c c vrange mode vrange_code false s
    = (Ok (Single (IntArray (drop (Z.to_nat c) data))), s).
Proof.
  intros data nsamples c vrange mode vrange_code s Hc.
  unfold split_channels.
  replace (1 + c - c) with 1 by lia.
  replace (Z.max (c + 1) c) with (c + 1) by lia.
  unfold py_range. replace (c + 1 - c) with 1 by lia.
  change (seqZ c 1) with [0 + c]. rewrite Z.add_0_l.
  cbn [Z.eqb for_each]. unfold bind, read_channel.
  rewrite py_slice_from_step_1 by exact Hc.
  cbn [ret]. rewrite insert_empty, map_to_list_singleton. reflexivity.
Qed.

Lemma for_each_read_channel_lookup data nchannels vrange mode vrange_code
    (chans : list Z) :
  nchannels <> 0 ->
  forall (out : gmap Z (ndarray F)) (s : session F),
  exists out',
    for_each chans
      (read_channel data nchannels vrange mode vrange_code false) out s
    = (Ok out', s) /\
    forall c,
      out' !! c
      = if decide (c ∈ chans)
        then IntArray <$> py_slice_from c nchannels data
        else out !! c.
Proof.
  intros Hn. induction chans as [|c0 chans IH]; intros out s; simpl.
  - exists out. split; [reflexivity|]. intros c.
    destruct (decide (c ∈ [])) as [Hin|_]; [inversion Hin | reflexivity].
  - unfold bind at 1. unfold read_channel at 1.
    destruct (py_slice_from_nonzero c0 nchannels data Hn) as [column Hcol].
    rewrite Hcol. cbn [ret].
    destruct (IH (<[c0 := IntArray column]> out) s) as (out' & -> & Hout').
    exists out'. split; [reflexivity|]. intros c. rewrite Hout'.
    destruct (decide (c ∈ chans)) as [Hin|Hnin];
      destruct (decide (c ∈ c0 :: chans)) as [Hin'|Hnin'];
      try reflexivity.
    + destruct Hnin'. now right.
    + apply elem_of_cons in Hin' as [->|]; [|contradiction].
      now rewrite lookup_insert_eq, Hcol.
    + rewrite lookup_insert_ne; [reflexivity|].
      intros ->. apply Hnin'. now left.
Qed.

(** X12. A scan of three channels or more: the result is a dict whose keys
    are the channels from [lowchan] up to, but not including, [highchan].
    The array of channel [c] holds the items of the buffer at [c],
    [c + nchannels], [c + 2 nchannels], ...: for [lowchan = 0] these are the
    samples of channel [c]. *)
Theorem split_channels_many_channels :
  forall (data : list Z) (nsamples lowchan highchan vrange : Z)
         (mode vrange_code : string) (s : session F),
    0 <= lowchan -> lowchan + 2 <= highchan ->
    exists d : gmap Z (ndarray F),
      split_channels data nsamples lowchan highchan vrange mode vrange_code
        false s = (Ok (Multi d), s) /\
      (forall c, lowchan <= c < highchan ->
         exists column,
           d !! c = Some (IntArray column) /\
           forall j : nat,
             column !! j
             = data !! Z.to_nat (c + Z.of_nat j * (1 + highchan - lowchan))) /\
      (forall c, ~ (lowchan <= c < highchan) -> d !! c = None).
Proof.
  intros data nsamples lowchan highchan vrange mode vrange_code s Hlow Hhigh.
  unfold split_channels.
  destruct (Z.eqb_spec (1 + highchan - lowchan) 0) as [|Hn]; [lia|].
  replace (Z.max (lowchan + 1) highchan) with highchan by lia.
  unfold bind.
  destruct (for_each_read_channel_lookup data (1 + highchan - lowchan)
              vrange mode vrange_code (py_range lowchan highchan) Hn ∅ s)
    as (d & -> & Hd).
  assert (Hin : forall c, c ∈ py_range lowchan highchan
                          <-> lowchan <= c < highchan).
  { intros c. unfold py_range. rewrite elem_of_seqZ. lia. }
  assert (Hcol : forall c, lowchan <= c < highchan ->
            exists column,
              d !! c = Some (IntArray column) /\
              forall j : nat,
                column !! j
                = data !! Z.to_nat
                    (c + Z.of_nat j * (1 + highchan - lowchan))).
  { intros c Hc. rewrite Hd.
    destruct (decide (c ∈ py_range lowchan highchan)) as [_|Hnin];
      [|destruct Hnin; now apply Hin].
    destruct (py_slice_from_stride c (1 + highchan - lowchan) data)
      as (column & -> & Hcolumn); [lia | lia |].
    exists column. split; [reflexivity | exact Hcolumn]. }
  exists d. split; [|split; [exact Hcol|]].
  - destruct (Hcol lowchan) as (c0 & H0 & _); [lia|].
    destruct (Hcol (lowchan + 1)) as (c1 & H1 & _); [lia|].
    apply elem_of_map_to_list in H0, H1.
    destruct (map_to_list d) as [|[k a] [|]]; try reflexivity.
    apply list_elem_of_singleton in H0, H1.
    inversion H0; inversion H1; lia.
  - intros c Hc. rewrite Hd.
    destruct (decide (c ∈ py_range lowchan highchan)) as [Hc'|_];
      [destruct Hc; now apply Hin | apply lookup_empty].
Qed.

(** ** What the methods leave alone *)

Lemma read_scan_data_preserves {X} (f : session F -> X) length_ rate :
  (forall v s, f (set_bulk_in v s) = f s) ->
  preserves f (read_scan_data length_ rate).
Proof.
  intros Hf s r s' H. unfold read_scan_data in H.
  destruct (rate =? 0); [now inversion H|].
  destruct (read_scan_loop _ _ _ _) as [r0 rest]. inversion H. apply Hf.
Qed.

Lemma configure_read_preserves {X} (f : session F -> X)
    frequency nsamples lowchan highchan vrange mode :
  (forall v s, f (set_sent v s) = f s) ->
  (forall v s, f (set_conf v s) = f s) ->
  preserves f (configure_read frequency nsamples lowchan highchan vrange mode).
Proof.
  intros Hsent Hconf s r s' H. rewrite configure_read_unfold in H.
  destruct (decide _); [now inversion H|].
  revert H. apply preserves_bind.
  - now apply send_all_preserves.
  - intros _. now apply preserves_modify.
Qed.

Lemma attempt_preserves {X} (f : session F -> X)
    frequency nsamples lowchan highchan vrange mode :
  (forall v s, f (set_sent v s) = f s) ->
  (forall v s, f (set_conf v s) = f s) ->
  (forall v s, f (set_bulk_in v s) = f s) ->
  preserves f (attempt frequency nsamples lowchan highchan vrange mode).
Proof.
  intros Hsent Hconf Hbulk. unfold attempt, stop.
  repeat first
    [ apply configure_read_preserves; assumption
    | apply send_message_preserves; assumption
    | apply read_scan_data_preserves; assumption
    | apply preserves_ret
    | apply preserves_bind; [|intros ?] ].
Qed.

Lemma cached_calib_preserves {X} (f : session F -> X) chan mode vrange_code :
  (forall v s, f (set_sent v s) = f s) ->
  (forall v s, f (set_calib_data v s) = f s) ->
  preserves f (cached_calib chan mode vrange_code).
Proof.
  intros Hsent Hcal. unfold cached_calib.
  apply preserves_bind; [apply preserves_get | intros s0].
  apply preserves_bind.
  - destruct (decide _); [apply preserves_ret|].
    apply preserves_bind; [now apply get_calib_data_preserves | intros c].
    apply preserves_modify. intros s. apply Hcal.
  - intros _. apply preserves_bind; [apply preserves_get | intros s1].
    destruct (calib_data s1 !! _); [apply preserves_ret | apply preserves_raise].
Qed.

Lemma split_channels_preserves {X} (f : session F -> X)
    data nsamples lowchan highchan vrange mode vrange_code scale :
  (forall v s, f (set_sent v s) = f s) ->
  (forall v s, f (set_calib_data v s) = f s) ->
  preserves f
    (split_channels data nsamples lowchan highchan vrange mode vrange_code
       scale).
Proof.
  intros Hsent Hcal. unfold split_channels.
  destruct (_ =? 0); [apply preserves_raise|].
  apply preserves_bind.
  - apply preserves_for_each. intros c out. unfold read_channel.
    destruct (py_slice_from _ _ _); [|apply preserves_raise].
    destruct scale; [|apply preserves_ret].
    apply preserves_bind; [now apply cached_calib_preserves | intros cal].
    destruct (_ !! c); [apply preserves_ret | apply preserves_raise].
  - intros out. destruct (map_to_list out) as [|[k a] [|]];
      apply preserves_ret.
Qed.

Lemma read_scan_data_never_raises e0 length_ rate :
  internal_only e0 -> never_raises e0 (read_scan_data length_ rate).
Proof.
  intros He s e s' H Heq. subst e. unfold read_scan_data in H.
  destruct (rate =? 0); [inversion H; subst; destruct He; discriminate|].
  destruct (read_scan_loop _ _ _ _) as [r rest] eqn:E.
  inversion H; subst. clear H.
  revert E. generalize (@nil Z). generalize (bulk_in s).
  induction l as [|o future IH]; intros data E; simpl in E.
  - discriminate.
  - repeat match type of E with
           | context [match ?x with _ => _ end] => destruct x
           | context [if ?x then _ else _] => destruct x
           end;
      try discriminate;
      try (inversion E; subst; destruct He; discriminate).
    eapply IH, E.
Qed.

Lemma send_all_never_raises e0 messages :
  internal_only e0 -> never_raises e0 (send_all messages).
Proof.
  intros He. induction messages as [|m ms IH]; simpl.
  - apply never_raises_ret.
  - apply never_raises_bind;
      [now apply send_message_never_raises | intros _; exact IH].
Qed.

Lemma configure_read_never_raises e0
    frequency nsamples lowchan highchan vrange mode :
  internal_only e0 ->
  never_raises e0
    (configure_read frequency nsamples lowchan highchan vrange mode).
Proof.
  intros He s e s' H. rewrite configure_read_unfold in H.
  destruct (decide _); [inversion H|].
  revert H. apply never_raises_bind.
  - now apply send_all_never_raises.
  - intros _. apply never_raises_modify.
Qed.

Lemma attempt_never_raises e0 frequency nsamples lowchan highchan vrange mode :
  internal_only e0 ->
  never_raises e0 (attempt frequency nsamples lowchan highchan vrange mode).
Proof.
  intros He. unfold attempt, stop.
  repeat first
    [ apply configure_read_never_raises; exact He
    | apply send_message_never_raises; exact He
    | apply read_scan_data_never_raises; exact He
    | apply never_raises_ret
    | apply never_raises_bind; [|intros ?] ].
Qed.

Lemma cached_calib_never_raises chan mode vrange_code :
  never_raises RecursionLimit (cached_calib chan mode vrange_code).
Proof.
  unfold cached_calib.
  apply never_raises_bind; [apply never_raises_get | intros s0].
  apply never_raises_bind.
  - destruct (decide _); [apply never_raises_ret|].
    apply never_raises_bind;
      [apply get_calib_data_never_raises; now right | intros c].
    apply never_raises_modify.
  - intros _. apply never_raises_bind; [apply never_raises_get | intros s1].
    destruct (calib_data s1 !! _);
      [apply never_raises_ret | now apply never_raises_raise].
Qed.

Lemma split_channels_never_raises
    data nsamples lowchan highchan vrange mode vrange_code scale :
  never_raises RecursionLimit
    (split_channels data nsamples lowchan highchan vrange mode vrange_code
       scale).
Proof.
  unfold split_channels.
  destruct (_ =? 0); [now apply never_raises_raise|].
  apply never_raises_bind.
  - apply never_raises_for_each. intros c out. unfold read_channel.
    destruct (py_slice_from _ _ _); [|now apply never_raises_raise].
    destruct scale; [|apply never_raises_ret].
    apply never_raises_bind; [apply cached_calib_never_raises | intros cal].
    destruct (_ !! c); [apply never_raises_ret | now apply never_raises_raise].
  - intros out. destruct (map_to_list out) as [|[k a] [|]];
      apply never_raises_ret.
Qed.

(** ** The retry counter of [simple_read] *)

Section RetryCounter.

Variables frequency nsamples lowchan highchan vrange : Z.
Variable mode : string.
Variable scale : bool.

(** X13. The retry counter stays within its limit, and a call that returns
    a value leaves it at 0: from a session whose counter is at most 10,
    [simple_read] ends, with a value or with an exception, in a session
    whose counter is at most 10, and with 0 when it returned a value. *)
Theorem simple_read_counter :
  forall (fuel : nat) (s s' : session F) (r : result (read_result F)),
    (read_recursion_depth s <= 10)%nat ->
    simple_read fuel frequency nsamples lowchan highchan vrange mode scale s
      = (r, s') ->
    (read_recursion_depth s' <= 10)%nat /\
    (forall v, r = Ok v -> read_recursion_depth s' = 0%nat).
Proof.
  induction fuel as [|fuel IH]; intros s s' r Hdepth H.
  - inversion H; subst. split; [exact Hdepth | discriminate].
  - rewrite simple_read_unfold in H.
    destruct (attempt frequency nsamples lowchan highchan vrange mode s)
      as [[raw|e] s1] eqn:Hatt.
    + assert (Hd : read_recursion_depth s1 = read_recursion_depth s)
        by (eapply attempt_preserves; [reflexivity .. | exact Hatt]).
      destruct (negb _ && (read_recursion_depth s1 <? 10)%nat) eqn:Hretry.
      * apply andb_true_iff in Hretry as [_ Hlt].
        apply Nat.ltb_lt in Hlt.
        apply (IH _ _ _ ltac:(rewrite (proj2 (retry_session_fields raw s1)); lia) H).
      * assert (Hs' : read_recursion_depth s'
                      = read_recursion_depth (set_read_recursion_depth 0 s1))
          by (eapply split_channels_preserves; [reflexivity .. | exact H]).
        simpl in Hs'. rewrite Hs'. split; [lia | reflexivity].
    + inversion H; subst.
      assert (Hd : read_recursion_depth s' = read_recursion_depth s)
        by (eapply attempt_preserves; [reflexivity .. | exact Hatt]).
      split; [lia | discriminate].
Qed.

(** X14. The recursion of [simple_read] is bounded by its counter: with a
    stack for one call more than the counter is below 10, the recursion
    limit is never met, and a deeper stack changes nothing. *)
Theorem simple_read_recursion_bound :
  forall (fuel fuel' : nat) (s : session F),
    (10 - read_recursion_depth s < fuel)%nat ->
    (10 - read_recursion_depth s < fuel')%nat ->
    simple_read fuel frequency nsamples lowchan highchan vrange mode scale s
    = simple_read fuel' frequency nsamples lowchan highchan vrange mode scale s
    /\
    fst (simple_read fuel frequency nsamples lowchan highchan vrange mode
           scale s) <> Raise RecursionLimit.
Proof.
  induction fuel as [|fuel IH]; intros fuel' s Hfuel Hfuel'; [lia|].
  destruct fuel' as [|fuel']; [lia|].
  rewrite !simple_read_unfold.
  destruct (attempt frequency nsamples lowchan highchan vrange mode s)
    as [[raw|e] s1] eqn:Hatt.
  - assert (Hd : read_recursion_depth s1 = read_recursion_depth s)
      by (eapply attempt_preserves; [reflexivity .. | exact Hatt]).
    destruct (negb _ && (read_recursion_depth s1 <? 10)%nat) eqn:Hretry.
    + apply andb_true_iff in Hretry as [_ Hlt]. apply Nat.ltb_lt in Hlt.
      apply IH; rewrite (proj2 (retry_session_fields raw s1)); lia.
    + split; [reflexivity|].
      destruct (split_channels _ _ _ _ _ _ _ _ _) as [[v|e] s2] eqn:Hsplit;
        [discriminate|].
      simpl. intros Heq. inversion Heq; subst.
      now apply (split_channels_never_raises _ _ _ _ _ _ _ _ _ _ _ Hsplit).
  - split; [reflexivity|]. simpl. intros Heq. inversion Heq; subst.
    apply (attempt_never_raises RecursionLimit _ _ _ _ _ _
             ltac:(now right) _ _ _ Hatt). reflexivity.
Qed.

(** X15. A retry that succeeds: when the first [k] attempts each return a
    count of items different from [nsamples] and the next one returns
    exactly [nsamples] items, with [k] retries still allowed by the counter,
    [simple_read] starts [k + 1] scans and deinterleaves the data of the
    last one, with the counter back at 0. *)
Theorem simple_read_retry_succeeds :
  forall (k fuel : nat) (s s_k : session F) (raw : list Z),
    (read_recursion_depth s + k <= 10)%nat ->
    (k < fuel)%nat ->
    (forall i, (i < k)%nat ->
       exists raw_i s_i,
         attempt frequency nsamples lowchan highchan vrange mode
           (after_retries frequency nsamples lowchan highchan vrange mode i s)
         = (Ok raw_i, s_i) /\
         Z.of_nat (length raw_i) <> nsamples) ->
    attempt frequency nsamples lowchan highchan vrange mode
      (after_retries frequency nsamples lowchan highchan vrange mode k s)
    = (Ok raw, s_k) ->
    Z.of_nat (length raw) = nsamples ->
    simple_read fuel frequency nsamples lowchan highchan vrange mode scale s
    = split_channels raw nsamples lowchan highchan vrange mode
        ("BIP" +:+ fmt_d vrange +:+ "V") scale
        (set_read_recursion_depth 0 s_k) /\
    scan_starts (sent s_k) = (scan_starts (sent s) + S k)%nat.
Proof.
  induction k as [|k IH]; intros fuel s s_k raw Hdepth Hfuel Hshort Hlast Hlen;
    (destruct fuel as [|fuel]; [lia|]); rewrite simple_read_unfold.
  - cbn [after_retries] in Hlast. rewrite Hlast.
    destruct (Z.eqb_spec (Z.of_nat (length raw)) nsamples); [|contradiction].
    cbn [negb andb]. split; [reflexivity|].
    destruct (attempt_Ok _ _ _ _ _ _ _ _ _ Hlast) as [-> _]. lia.
  - destruct (Hshort 0%nat) as (raw0 & s0 & Hatt0 & Hlen0); [lia|].
    cbn [after_retries] in Hatt0. rewrite Hatt0.
    destruct (attempt_Ok _ _ _ _ _ _ _ _ _ Hatt0) as [Hstarts Hd].
    destruct (Z.eqb_spec (Z.of_nat (length raw0)) nsamples); [contradiction|].
    destruct (Nat.ltb_spec (read_recursion_depth s0) 10); [|lia].
    cbn [negb andb].
    destruct (retry_session_fields raw0 s0) as [Hsent Hdep].
    cbn [after_retries] in Hlast. rewrite Hatt0 in Hlast.
    destruct (IH fuel (retry_session raw0 s0) s_k raw) as [Hrun Hcount];
      try assumption; try lia.
    + intros i Hi. destruct (Hshort (S i)) as (raw_i & s_i & Hatt_i & Hlen_i);
        [lia|].
      cbn [after_retries] in Hatt_i. rewrite Hatt0 in Hatt_i.
      exists raw_i, s_i. now split.
    + split; [exact Hrun|]. rewrite Hcount, Hsent, Hstarts. lia.
Qed.

End RetryCounter.

(** ** The case of the mode *)

Lemma configure_read_Ok_conf frequency nsamples lowchan highchan vrange mode
    (s s' : session F) :
  configure_read frequency nsamples lowchan highchan vrange mode s
    = (Ok tt, s') ->
  conf s' = Some (mode, vrange, lowchan, highchan, frequency, nsamples).
Proof.
  rewrite configure_read_unfold.
  destruct (decide _) as [E|_]; intros H.
  - inversion H; subst. now symmetry.
  - apply bind_Ok_inv in H as ([] & s1 & _ & H). now inversion H.
Qed.

(** X16. The wire is case-insensitive, the recorded configuration is not:
    two modes that differ only in the case of their letters give the same
    six commands on the wire, yet after a call with one of them a call with
    the other, all else equal, is not skipped and sends the six commands
    again. *)
Theorem configure_read_mode_case :
  forall (frequency nsamples lowchan highchan vrange : Z)
         (mode mode' : string) (s s1 : session F),
    mode <> mode' ->
    upper mode = upper mode' ->
    configure_read frequency nsamples lowchan highchan vrange mode s
      = (Ok tt, s1) ->
    acknowledged (sent s1)
      (config_messages frequency nsamples lowchan highchan vrange mode') ->
    let commands :=
      wire <$> config_messages frequency nsamples lowchan highchan vrange mode
    in
    wire <$> config_messages frequency nsamples lowchan highchan vrange mode'
      = commands /\
    configure_read frequency nsamples lowchan highchan vrange mode' s1
    = (Ok tt,
       set_conf (Some (mode', vrange, lowchan, highchan, frequency, nsamples))
         (set_sent (sent s1 ++ commands) s1)).
Proof.
  intros frequency nsamples lowchan highchan vrange mode mode' s s1
         Hne Hupper Hfirst Hack commands.
  assert (Hsame :
    wire <$> config_messages frequency nsamples lowchan highchan vrange mode'
    = commands).
  { subst commands. unfold config_messages. cbn [fmap list_fmap].
    f_equal. apply wire_upper. now rewrite !upper_app, Hupper. }
  split; [exact Hsame|].
  apply configure_read_Ok_conf in Hfirst.
  rewrite configure_read_unfold.
  destruct (decide _) as [E|_].
  - rewrite Hfirst in E. inversion E. now destruct Hne.
  - rewrite (bind_Ok _ _ _ _ _ (send_all_acknowledged _ _ Hack)).
    now rewrite Hsame.
Qed.

(** ** The FPGA of [__init__] *)

Lemma upload_firmware_accepted
    (fw_out : list (list byte) -> list byte -> usb_result Z) chunks :
  (forall uploaded msg, exists n, fw_out uploaded msg = UsbOk n) ->
  forall uploaded,
    upload_firmware fw_out chunks uploaded = (Ok tt, uploaded ++ chunks).
Proof.
  intros Hfw. induction chunks as [|c chunks IH]; intros uploaded; simpl.
  - now rewrite app_nil_r.
  - destruct (Hfw uploaded c) as [n ->]. rewrite IH. now rewrite <- app_assoc.
Qed.

(** X17. A device in configuration mode: when the status query is answered
    [DEV:FPGACFG=CONFIGMODE], the device takes the unlock command and every
    transfer of the image, and then reports [DEV:FPGACFG=CONFIGURED],
    [__init__] goes on with exactly three commands and the chunks of the
    image, in order, uploaded. *)
Theorem configure_fpga_uploads :
  forall (fw_out : list (list byte) -> list byte -> usb_result Z)
         (rbf : list byte) (s : session F) (r1 r2 r3 : string),
    let query := wire "?DEV:FPGACFG" in
    let unlock := wire "DEV:FPGACFG=0xAD" in
    accepted (sent s) "?DEV:FPGACFG" r1 ->
    rstrip_nul r1 = "DEV:FPGACFG=CONFIGMODE"%string ->
    accepted (sent s ++ [query]) "DEV:FPGACFG=0xAD" r2 ->
    (forall uploaded msg, exists n, fw_out uploaded msg = UsbOk n) ->
    accepted (sent s ++ [query; unlock]) "?DEV:FPGACFG" r3 ->
    rstrip_nul r3 = "DEV:FPGACFG=CONFIGURED"%string ->
    configure_fpga fw_out (Some rbf) s
    = (Ok tt, set_sent (sent s ++ [query; unlock; query]) s, fpga_chunks rbf).
Proof.
  intros fw_out rbf s r1 r2 r3 query unlock H1 E1 H2 Hfw H3 E3.
  subst query unlock. unfold configure_fpga.
  rewrite (send_message_accepted _ _ _ H1), E1, String.eqb_refl.
  rewrite (send_message_accepted _ _
             (set_sent (sent s ++ [wire "?DEV:FPGACFG"]) s) H2).
  rewrite (upload_firmware_accepted fw_out (fpga_chunks rbf) Hfw []).
  cbn [app].
  erewrite send_message_accepted;
    [| simpl; rewrite <- app_assoc; exact H3].
  rewrite E3, String.eqb_refl.
  unfold set_sent. simpl. now rewrite <- !app_assoc.
Qed.

(** X18. [__init__] gets past the FPGA only when it is configured: for a
    class with a firmware image, whenever [configure_fpga] returns without
    an exception, the last command sent is the status query and the device
    answered it with [DEV:FPGACFG=CONFIGURED]; a class without an image
    sends nothing. *)
Theorem configure_fpga_Ok_configured :
  forall (fw_out : list (list byte) -> list byte -> usb_result Z)
         (fpga_image : option (list byte)) (s s' : session F)
         (uploaded : list (list byte)),
    configure_fpga fw_out fpga_image s = (Ok tt, s', uploaded) ->
    match fpga_image with
    | None => s' = s /\ uploaded = []
    | Some _ =>
        exists hist reply,
          sent s' = hist ++ [wire "?DEV:FPGACFG"] /\
          accepted hist "?DEV:FPGACFG" reply /\
          rstrip_nul reply = "DEV:FPGACFG=CONFIGURED"%string
    end.
Proof.
  intros fw_out fpga_image s s' uploaded H. unfold configure_fpga in H.
  destruct fpga_image as [rbf|]; [|now inversion H].
  destruct (send_message "?DEV:FPGACFG" s) as [[ret1|e1] s1]; [|discriminate].
  set (middle := if (ret1 =? "DEV:FPGACFG=CONFIGMODE")%string then _ else _)
    in H.
  destruct middle as [[[[]|e2] s2] up]; [|discriminate].
  destruct (send_message "?DEV:FPGACFG" s2) as [[ret3|e3] s3] eqn:H3;
    [|discriminate].
  destruct (String.eqb_spec ret3 "DEV:FPGACFG=CONFIGURED"); [|discriminate].
  inversion H; subst.
  apply send_message_Ok_inv in H3 as (-> & reply & Hacc & Hret).
  exists (sent s2), reply.
  split; [reflexivity | split; [exact Hacc | now symmetry]].
Qed.

End MCCDevice.

(** ** The scenario of the specification *)

(** C1 (what the code does).  In the scenario
    [simple_read(1000, 4, 0, 1, 10, 'SE', False)] the bulk read yields
    [10, 20, 30, 40], and the call returns the single array [10, 30]: the
    loop over the channels stops before channel 1, and a dict with one
    entry is replaced by its entry. *)
Theorem simple_read_two_channel_scenario :
  forall fuel : nat,
    let s0 : session float := new_session [UsbOk scenario_packet] in
    fst (read_scan_data USB_7202 4 1000 s0) = Ok [10; 20; 30; 40] /\
    fst (simple_read no_float USB_7202 (S fuel) 1000 4 0 1 10 "SE" false s0)
    = Ok (Single (IntArray [10; 30])).
Proof. intros fuel. split; vm_compute; reflexivity. Qed.

(** C3 (counterexample).  The endpoint is silent, so every attempt reads 0
    items where 4 are asked for; the call starts eleven scans, not ten. *)
Lemma simple_read_silent_endpoint_attempts :
  let s0 : session float := new_session [] in
  short_reads USB_7202 1000 4 0 1 10 "SE" 10 s0 /\
  scan_starts
    (sent (snd (simple_read no_float USB_7202 11 1000 4 0 1 10 "SE" false s0)))
  = 11%nat /\
  scan_starts
    (sent (snd (simple_read no_float USB_7202 11 1000 4 0 1 10 "SE" false s0)))
  <> 10%nat.
Proof.
  split; [|split].
  - apply short_readsb_spec. vm_compute. reflexivity.
  - vm_compute. reflexivity.
  - vm_compute. discriminate.
Qed.

(** C3 on the silent endpoint: the class [USB_7202], four items asked for. *)
Lemma simple_read_persistent_short_read_witness :
  let s0 : session float := new_session [] in
  exists raw s_last,
    attempt USB_7202 1000 4 0 1 10 "SE"
      (after_retries USB_7202 1000 4 0 1 10 "SE" 10 s0) = (Ok raw, s_last) /\
    Z.of_nat (length raw) <> 4 /\
    scan_starts (sent s_last) = (scan_starts (sent s0) + 11)%nat /\
    simple_read no_float USB_7202 11 1000 4 0 1 10 "SE" false s0
    = split_channels no_float USB_7202 raw 4 0 1 10 "SE"
        ("BIP" +:+ fmt_d 10 +:+ "V") false
        (set_read_recursion_depth 0 s_last) /\
    (false = false -> 1 + 1 - 0 <> 0 ->
     exists r,
       simple_read no_float USB_7202 11 1000 4 0 1 10 "SE" false s0
       = (Ok r, set_read_recursion_depth 0 s_last)).
Proof.
  apply (simple_read_persistent_short_read no_float USB_7202
           1000 4 0 1 10 "SE" false 11 (new_session [])).
  - reflexivity.
  - lia.
  - apply short_readsb_spec. vm_compute. reflexivity.
Defined.

(** ** Scaling *)


(** Linearity and rounding.  In binary64 the outputs are rounded, and equal
    steps of the input do not always give equal steps of the output: on
    [USB_7202] with the range -10 V .. 10 V the raw counts 846, 847 and 848
    are one apart, and the voltages of 847 and 848 differ by more than
    those of 846 and 847. *)
Lemma scale_and_calibrate_data_steps_differ :
  ~ (forall x y z : float,
       fsub y x = fsub z y ->
       fsub (scale_and_calibrate_data USB_7202 y (-10)%float 10%float
               (1%float, 0%float))
            (scale_and_calibrate_data USB_7202 x (-10)%float 10%float
               (1%float, 0%float))
       = fsub (scale_and_calibrate_data USB_7202 z (-10)%float 10%float
                 (1%float, 0%float))
              (scale_and_calibrate_data USB_7202 y (-10)%float 10%float
                 (1%float, 0%float))).
Proof.
  intros H. specialize (H 846%float 847%float 848%float eq_refl).
  apply (f_equal (fun v => PrimFloat.ltb v 0x1.4001400144d4bp-12%float)) in H.
  vm_compute in H. discriminate.
Qed.

(** [scale_and_calibrate_data] reads nothing of the class but
    [max_counts]. *)
Lemma scale_and_calibrate_data_bench (dev : device)
    (data min_voltage max_voltage : float) (calib : float * float) :
  scale_and_calibrate_data dev data min_voltage max_voltage calib
  = scale_and_calibrate_data (bench (max_counts dev)) data
      min_voltage max_voltage calib.
Proof. reflexivity. Qed.

Lemma all_from_spec (p : Z -> bool) (first : Z) (n : positive) :
  all_from p first n = true ->
  forall k, first <= k < first + Z.pos n -> p k = true.
Proof.
  unfold all_from.
  set (step := fun st : Z * bool => (fst st + 1, snd st && p (fst st))).
  assert (Hinv : forall m,
    fst (Pos.iter step (first, true) m) = first + Z.pos m /\
    (snd (Pos.iter step (first, true) m) = true ->
     forall k, first <= k < first + Z.pos m -> p k = true)).
  { induction m as [|m [IH1 IH2]] using Pos.peano_ind.
    - simpl. split; [lia|]. intros H k Hk.
      assert (k = first) by lia. subst k. exact H.
    - rewrite Pos.iter_succ. unfold step at 1. cbn [fst snd].
      split; [lia|]. intros H k Hk.
      apply andb_true_iff in H as [H1 H2].
      destruct (Z.eq_dec k (first + Z.pos m)) as [->|].
      + rewrite <- IH1. exact H2.
      + apply IH2; [exact H1 | lia]. }
  intros H k Hk. exact (proj2 (Hinv n) H k Hk).
Qed.




(** ** The continuous-mode buffer *)

Lemma deque_append_items {A} (x : A) (d : StreamBuffer.deque A)
    (hist : list A) :
  StreamBuffer.items d
    = drop (length hist - StreamBuffer.maxlen d) hist ->
  StreamBuffer.maxlen (StreamBuffer.append x d) = StreamBuffer.maxlen d /\
  StreamBuffer.items (StreamBuffer.append x d)
    = drop (length (hist ++ [x]) - StreamBuffer.maxlen d) (hist ++ [x]).
Proof.
  intros Hd. unfold StreamBuffer.append.
  assert (Hlen : length (StreamBuffer.items d)
                 = (length hist - (length hist - StreamBuffer.maxlen d))%nat)
    by (now rewrite Hd, length_drop).
  rewrite length_app. simpl length.
  destruct (StreamBuffer.maxlen d) as [|m] eqn:Hm.
  - split; [exact Hm|]. rewrite Hd.
    replace (length hist + 1 - 0)%nat with (length (hist ++ [x]))
      by (rewrite length_app; simpl; lia).
    now rewrite Nat.sub_0_r, !drop_all.
  - destruct (Nat.ltb_spec (length (StreamBuffer.items d)) (S m));
      (split; [reflexivity|]); simpl.
    + replace (length hist + 1 - S m)%nat with 0%nat by lia.
      replace (length hist - S m)%nat with 0%nat in Hd by lia.
      now rewrite Hd.
    + rewrite Hd.
      replace (tl (drop (length hist - S m) hist))
        with (drop 1 (drop (length hist - S m) hist))
        by (now destruct (drop _ hist)).
      rewrite drop_drop.
      replace (length hist + 1 - S m)%nat
        with (length hist - S m + 1)%nat by lia.
      now rewrite drop_app_le by lia.
Qed.

Lemma poll_items {A} (reads : list (usb_result A)) :
  forall (d : StreamBuffer.deque A) (hist : list A),
    StreamBuffer.items d
      = drop (length hist - StreamBuffer.maxlen d) hist ->
    let d' := StreamBuffer.poll reads d in
    let all := hist ++ StreamBuffer.packets reads in
    StreamBuffer.maxlen d' = StreamBuffer.maxlen d /\
    StreamBuffer.items d' = drop (length all - StreamBuffer.maxlen d) all.
Proof.
  induction reads as [|[packet|errno] reads IH]; intros d hist Hd; simpl.
  - now rewrite app_nil_r.
  - destruct (deque_append_items packet d hist Hd) as [Hm Hi].
    rewrite <- Hm in Hi. destruct (IH _ _ Hi) as [Hm' Hi'].
    rewrite Hm in Hm', Hi'. rewrite <- app_assoc in Hi'. now split.
  - now apply IH.
Qed.

(** C8.  The buffer of capacity [N] after any run of reads by the poller:
    it holds the packets received, less all but the last [N] of them, in
    order of arrival, so never more than [N] packets, and exactly [N] once
    more than [N] have been appended. *)
Theorem stream_buffer_keeps_most_recent :
  forall (A : Type) (N : nat) (reads : list (usb_result A)),
    let d := StreamBuffer.poll reads (StreamBuffer.new N) in
    let appended := StreamBuffer.packets reads in
    StreamBuffer.items d = drop (length appended - N) appended /\
    length (StreamBuffer.items d) = Nat.min N (length appended).
Proof.
  intros A N reads d appended.
  destruct (poll_items reads (StreamBuffer.new N) []) as [_ Hi];
    [now rewrite drop_nil|].
  simpl in Hi. fold d appended in Hi. split; [exact Hi|].
  rewrite Hi, length_drop. lia.
Qed.

(** ** The theorems at concrete inputs *)

Ltac bench_accepts :=
  unfold config_messages;
  repeat match goal with
         | |- acknowledged _ _ (_ :: _) => split
         | |- acknowledged _ _ [] => exact I
         | |- exists _, accepted _ _ _ _ => eexists
         | |- accepted _ _ _ _ => unfold accepted
         | |- _ /\ _ => split
         | |- _ = _ => vm_compute; reflexivity
         end.

(** C5 on a fresh session of the bench device: the first call sends the six
    commands, the second one nothing. *)
Lemma configure_read_idempotent_witness :
  let s0 : session float := new_session [] in
  let messages := config_messages 1000 4 0 1 10 "SE" in
  let s1 := set_conf (Some ("SE"%string, 10, 0, 1, 1000, 4))
              (set_sent (sent s0 ++ (wire <$> messages)) s0) in
  configure_read USB_7202 1000 4 0 1 10 "SE" s0 = (Ok tt, s1) /\
  configure_read USB_7202 1000 4 0 1 10 "SE" s1 = (Ok tt, s1).
Proof.
  intros s0 messages s1.
  pose proof (configure_read_idempotent USB_7202 1000 4 0 1 10 "SE" s0)
    as (_ & Hnew & Htwice).
  assert (H : configure_read USB_7202 1000 4 0 1 10 "SE" s0 = (Ok tt, s1)).
  { apply Hnew; [discriminate|]. subst s0 messages. bench_accepts. }
  split; [exact H | apply (Htwice s1 H)].
Defined.

(** C6 on a device whose third command fails: [IOError], and no
    configuration recorded. *)
Lemma configure_read_failure_keeps_conf_witness :
  let s0 : session float := new_session [] in
  let run := configure_read (stalling 2) 1000 4 0 1 10 "SE" s0 in
  fst run = Raise (IOError "Send failed, possibly wrong command?") /\
  conf (snd run) = conf s0 /\
  conf (snd run) <> Some ("SE"%string, 10, 0, 1, 1000, 4).
Proof.
  intros s0 run.
  pose proof (configure_read_failure_keeps_conf (stalling 2)
                1000 4 0 1 10 "SE" s0) as [_ H].
  destruct (H (IOError "Send failed, possibly wrong command?") (snd run))
    as (Hsame & Hne & _).
  - vm_compute. reflexivity.
  - split; [vm_compute; reflexivity | split; assumption].
Defined.

(** C7 on a packet of two items followed by a time-out, four items asked
    for. *)
Lemma read_scan_data_returns_early_witness :
  let s0 : session float :=
    new_session [UsbOk [x0a; x00; x14; x00]; UsbErr (Some ETIMEDOUT)] in
  read_scan_data USB_7202 4 1000 s0 = (Ok [10; 20], set_bulk_in [] s0).
Proof.
  intros s0.
  apply (proj1 (read_scan_data_returns_early USB_7202 4 1000 s0
                  [[x0a; x00; x14; x00]] [] ltac:(discriminate)
                  ltac:(repeat constructor; simpl; [lia | eexists; reflexivity])
                  ltac:(reflexivity))
           (UsbErr (Some ETIMEDOUT))).
  - left. reflexivity.
  - reflexivity.
Defined.

(** C10 for three items asked for on the 64-byte endpoint. *)
Lemma read_scan_data_may_exceed_length_witness :
  exists (s : session float) data s',
    read_scan_data USB_7202 3 1000 s = (Ok data, s') /\
    3 < Z.of_nat (length data).
Proof.
  apply (proj1 (read_scan_data_may_exceed_length USB_7202 3 1000
                  ltac:(reflexivity) ltac:(discriminate))).
  discriminate.
Defined.

(** C9 on a fresh session of the bench device, over the rationals: channel
    0 is calibrated with two queries and then from the cache. *)
Lemma cached_calib_queries_once_witness :
  let s0 : session Q := new_session [] in
  let key : calib_key := (0, "SE"%string, "BIP10V"%string) in
  let s1 :=
    set_calib_data (<[key := (inject_Z 2, inject_Z 2)]> (calib_data s0))
      (set_sent (sent s0 ++ [wire (slope_query 0); wire (offset_query 0)]) s0)
  in
  cached_calib float_of_digits USB_7202 0 "SE" "BIP10V" s0
    = (Ok (inject_Z 2, inject_Z 2), s1) /\
  cached_calib float_of_digits USB_7202 0 "SE" "BIP10V" s1
    = (Ok (inject_Z 2, inject_Z 2), s1).
Proof.
  intros s0 key s1.
  apply (proj1 (cached_calib_queries_once float_of_digits USB_7202
                  0 "SE" "BIP10V" s0) "AI{0}:SLOPE=2" "AI{0}:OFFSET=2").
  - reflexivity.
  - bench_accepts.
  - vm_compute. reflexivity.
  - bench_accepts.
  - vm_compute. reflexivity.
Defined.

(** ** The firmware image in chunks *)

Lemma fpga_chunks_nat (rbf : list byte) :
  fpga_chunks rbf
  = (fun k : nat => take 64 (drop (64 * k) rbf))
      <$> seq 0 (Z.to_nat ((Z.of_nat (length rbf) + 63) / 64)).
Proof.
  unfold fpga_chunks, py_range_step, seqZ.
  replace (Z.of_nat (length rbf) - 0 + 64 - 1)
    with (Z.of_nat (length rbf) + 63) by lia.
  rewrite <- !list_fmap_compose. apply list_fmap_ext.
  intros _ k _. unfold compose, py_slice_range. f_equal; [lia|]. f_equal. lia.
Qed.

Lemma concat_take_drop {A} (cnt : nat) : forall l : list A,
  (length l <= 64 * cnt)%nat ->
  concat ((fun k : nat => take 64 (drop (64 * k) l)) <$> seq 0 cnt) = l.
Proof.
  induction cnt as [|cnt IH]; intros l Hlen.
  - destruct l; [reflexivity | simpl in Hlen; lia].
  - cbn [seq fmap list_fmap concat]. rewrite <- fmap_S_seq.
    change (list_fmap nat (list A)
              (fun k : nat => take 64 (drop (64 * k) l)) (S <$> seq 0 cnt))
      with ((fun k : nat => take 64 (drop (64 * k) l)) <$> (S <$> seq 0 cnt)).
    rewrite <- list_fmap_compose.
    rewrite (list_fmap_ext _ (fun k : nat => take 64 (drop (64 * k) (drop 64 l)))
               (seq 0 cnt)).
    + rewrite IH by (rewrite length_drop; lia).
      rewrite Nat.mul_0_r. apply take_drop.
    + intros _ k _. unfold compose. rewrite drop_drop. do 2 f_equal. lia.
Qed.

Lemma fpga_chunks_count (rbf : list byte) :
  (length rbf <= 64 * Z.to_nat ((Z.of_nat (length rbf) + 63) / 64))%nat /\
  (64 * Z.to_nat ((Z.of_nat (length rbf) + 63) / 64) < length rbf + 64)%nat.
Proof.
  set (n := Z.of_nat (length rbf)).
  pose proof (Z.mul_div_le (n + 63) 64 ltac:(lia)).
  pose proof (Z.mul_succ_div_gt (n + 63) 64 ltac:(lia)).
  assert (0 <= (n + 63) / 64) by (apply Z.div_pos; lia).
  subst n. split; lia.
Qed.

Lemma fpga_chunks_concat (rbf : list byte) : concat (fpga_chunks rbf) = rbf.
Proof.
  rewrite fpga_chunks_nat. apply concat_take_drop. apply fpga_chunks_count.
Qed.

(** X19. The firmware image is transmitted whole and in order, 64 bytes at
    a time: the chunks put together are the image, no chunk is empty or
    longer than 64 bytes, and there are [ceil(len / 64)] of them, so none
    for an empty image. *)
Theorem fpga_chunks_cover_image :
  forall rbf : list byte,
    concat (fpga_chunks rbf) = rbf /\
    Forall (fun msg => (0 < length msg <= 64)%nat) (fpga_chunks rbf) /\
    Z.of_nat (length (fpga_chunks rbf)) = (Z.of_nat (length rbf) + 63) / 64.
Proof.
  intros rbf. split; [apply fpga_chunks_concat|].
  destruct (fpga_chunks_count rbf) as [Hlo Hhi].
  rewrite fpga_chunks_nat. split.
  - apply Forall_fmap, Forall_forall. intros k Hk.
    apply elem_of_seq in Hk. simpl.
    rewrite length_take, length_drop. lia.
  - rewrite length_fmap, length_seq.
    apply Z2Nat.id, Z.div_pos; lia.
Qed.

(** ** Scaling over the range of a scan

    [simple_read] scales with [min_voltage = -vrange] and
    [max_voltage = vrange], [vrange] an [int] ([configure_read] takes no
    other), and with raw counts that are [uint16] samples. *)

Lemma endpoints_checked :
  all_from
    (fun v =>
       forallb
         (fun counts =>
            PrimFloat.Leibniz.eqb
              (scale_and_calibrate_data (bench counts) (of_int 0)
                 (of_int (- v)) (of_int v) (1%float, 0%float))
              (of_int (- v))
            && PrimFloat.Leibniz.eqb
                 (scale_and_calibrate_data (bench counts) (of_int counts)
                    (of_int (- v)) (of_int v) (1%float, 0%float))
                 (of_int v))
         [max_counts USB_2001_TC; max_counts USB_7204; max_counts USB_7202])
    0 1001 = true.
Proof. vm_compute. reflexivity. Qed.

Lemma class_counts (dev : device) :
  max_counts dev = max_counts USB_2001_TC \/
  max_counts dev = max_counts USB_7204 \/
  max_counts dev = max_counts USB_7202 ->
  In (max_counts dev)
    [max_counts USB_2001_TC; max_counts USB_7204; max_counts USB_7202].
Proof. simpl. intuition. Qed.

(** X20. In binary64, on a class with the [max_counts] of any class of the
    module (1, 0x0FFF or 0xFFFF), with the ideal calibration (slope 1,
    offset 0) and a range of -vrange .. vrange for an integer [vrange] up to
    1000, the raw count 0 comes out as exactly [-vrange] and the raw count
    [max_counts] as exactly [vrange]. *)
Theorem scale_and_calibrate_data_endpoints :
  forall (dev : device) (vrange : Z),
    max_counts dev = max_counts USB_2001_TC \/
    max_counts dev = max_counts USB_7204 \/
    max_counts dev = max_counts USB_7202 ->
    0 <= vrange <= 1000 ->
    scale_and_calibrate_data dev (of_int 0) (of_int (- vrange))
      (of_int vrange) (1%float, 0%float)
    = of_int (- vrange) /\
    scale_and_calibrate_data dev (of_int (max_counts dev))
      (of_int (- vrange)) (of_int vrange) (1%float, 0%float)
    = of_int vrange.
Proof.
  intros dev vrange Hclass Hv.
  rewrite !(scale_and_calibrate_data_bench dev).
  pose proof (all_from_spec _ _ _ endpoints_checked vrange ltac:(lia)) as H.
  cbv beta in H. rewrite forallb_forall in H.
  specialize (H _ (class_counts dev Hclass)).
  apply andb_true_iff in H as [H1 H2].
  split; apply FloatAxioms.Leibniz.eqb_spec; assumption.
Qed.

Lemma within_range_checked :
  forallb
    (fun counts =>
       all_from
         (fun v =>
            all_from
              (fun n =>
                 let volts :=
                   scale_and_calibrate_data (bench counts) (of_int n)
                     (of_int (- v)) (of_int v) (1%float, 0%float) in
                 let next :=
                   scale_and_calibrate_data (bench counts) (of_int (n + 1))
                     (of_int (- v)) (of_int v) (1%float, 0%float) in
                 PrimFloat.leb (of_int (- v)) volts
                 && PrimFloat.leb volts (of_int v)
                 && ((counts <=? n) || PrimFloat.ltb volts next))
              0 (Z.to_pos (counts + 1)))
         1 10)
    [max_counts USB_2001_TC; max_counts USB_7204; max_counts USB_7202]
  = true.
Proof. vm_compute. reflexivity. Qed.

(** X21. In binary64, on a class with the [max_counts] of any class of the
    module, with the ideal calibration and a range of -vrange .. vrange for
    an integer [vrange] from 1 to 10, every raw count from 0 to [max_counts]
    comes out within the range, rounding included, and below the voltage of
    the next count: scaling keeps the order of the raw counts and never
    maps two of them to one voltage. *)
Theorem scale_and_calibrate_data_monotone :
  forall (dev : device) (vrange n : Z),
    max_counts dev = max_counts USB_2001_TC \/
    max_counts dev = max_counts USB_7204 \/
    max_counts dev = max_counts USB_7202 ->
    1 <= vrange <= 10 ->
    0 <= n <= max_counts dev ->
    let volts k :=
      scale_and_calibrate_data dev (of_int k) (of_int (- vrange))
        (of_int vrange) (1%float, 0%float) in
    PrimFloat.leb (of_int (- vrange)) (volts n) = true /\
    PrimFloat.leb (volts n) (of_int vrange) = true /\
    (n < max_counts dev -> PrimFloat.ltb (volts n) (volts (n + 1)) = true).
Proof.
  intros dev vrange n Hclass Hv Hn volts. subst volts. cbv beta.
  rewrite !(scale_and_calibrate_data_bench dev).
  pose proof within_range_checked as H. rewrite forallb_forall in H.
  specialize (H _ (class_counts dev Hclass)).
  apply all_from_spec with (k := vrange) in H; [|lia].
  apply all_from_spec with (k := n) in H;
    [|destruct Hclass as [E|[E|E]]; rewrite E; simpl; simpl in E; lia].
  cbv beta zeta in H.
  apply andb_true_iff in H as [H H3].
  apply andb_true_iff in H as [H1 H2].
  split; [exact H1|]. split; [exact H2|].
  intros Hlt. apply orb_true_iff in H3 as [H3|H3]; [|exact H3].
  apply Z.leb_le in H3. lia.
Qed.

(** ** Continuous mode *)

(** X22. The packet size [start_continuous_transfer] derives from a rate
    that is not negative is a whole number of 64-byte packets, at least one,
    and one more for every full 1000 Hz; a size given by the caller is
    taken as it is. *)
Theorem continuous_packet_size_default :
  forall rate : Z,
    0 <= rate ->
    let size := continuous_packet_size rate None in
    64 <= size /\ size mod 64 = 0 /\
    64 * rate < 1000 * size <= 64 * rate + 64000 /\
    forall given, continuous_packet_size rate (Some given) = given.
Proof.
  intros rate Hrate size. subst size. unfold continuous_packet_size.
  pose proof (Z.mul_div_le rate 1000 ltac:(lia)).
  pose proof (Z.mul_succ_div_gt rate 1000 ltac:(lia)).
  assert (0 <= rate / 1000) by (apply Z.div_pos; lia).
  repeat split; try lia.
  apply Z.mod_mul. lia.
Qed.

Lemma extend_popleft_concat {A} (buffered : list (list A)) : forall data,
  extend_popleft buffered data = data ++ concat buffered.
Proof.
  induction buffered as [|p buffered IH]; intros data; simpl.
  - now rewrite app_nil_r.
  - now rewrite IH, app_assoc.
Qed.

(** X23. [get_new_bulk_data] hands over everything that is buffered, the
    oldest packet first, and leaves the buffer empty with its capacity
    unchanged: an immediate second call returns nothing; so does a call
    before any continuous transfer was started. *)
Theorem get_new_bulk_data_drains :
  forall (A : Type) (d : StreamBuffer.deque (list A)),
    let emptied :=
      Some {| StreamBuffer.maxlen := StreamBuffer.maxlen d;
              StreamBuffer.items := [] |} in
    get_new_bulk_data (Some d) = (concat (StreamBuffer.items d), emptied) /\
    get_new_bulk_data emptied = ([], emptied) /\
    get_new_bulk_data (@None (StreamBuffer.deque (list A))) = ([], None).
Proof.
  intros A d emptied. unfold get_new_bulk_data.
  rewrite extend_popleft_concat. repeat split.
Qed.

(** ** The further properties at concrete inputs *)

(** X1 for [aiscan:stop] and [AISCAN:STOP]. *)
Lemma send_message_case_insensitive_witness :
  let s0 : session float := new_session [] in
  send_message USB_7202 "aiscan:stop" s0
  = send_message USB_7202 "AISCAN:STOP" s0.
Proof.
  intros s0.
  apply (send_message_case_insensitive USB_7202 "aiscan:stop" "AISCAN:STOP"
           s0 eq_refl).
Defined.

(** X2 on a device whose first OUT transfer fails. *)
Lemma send_message_failures_witness :
  let s0 : session float := new_session [] in
  send_message (stalling 0) "AISCAN:STOP" s0
  = (Raise (IOError "Send failed, possibly wrong command?"),
     set_sent (sent s0 ++ [wire "AISCAN:STOP"]) s0).
Proof.
  intros s0.
  apply (proj1 (send_message_failures (stalling 0) "AISCAN:STOP" s0 eq_refl)
           (Some 32)).
  reflexivity.
Defined.

(** X3 on the bench device, which answers a command with the command and
    its NUL. *)
Lemma send_message_strips_padding_witness :
  let s0 : session float := new_session [] in
  send_message USB_7202 "aiscan:stop" s0
  = (Ok "AISCAN:STOP"%string, set_sent (sent s0 ++ [wire "aiscan:stop"]) s0).
Proof.
  intros s0.
  apply (send_message_strips_padding USB_7202 "aiscan:stop" "AISCAN:STOP" 1 s0);
    try reflexivity.
  discriminate.
Defined.

(** X4 for the reply [AI{0}:SLOPE=2], over the rationals. *)
Lemma float_after_eq_key_value_witness :
  let s0 : session Q := new_session [] in
  float_after_eq float_of_digits "AI{0}:SLOPE=2" s0 = (Ok (inject_Z 2), s0) /\
  float_after_eq float_of_digits "AI{0}:SLOPE" s0 = (Raise IndexError, s0).
Proof.
  intros s0.
  apply (float_after_eq_key_value float_of_digits "AI{0}:SLOPE" "2" s0);
    reflexivity.
Defined.

(** X5 on the device that answers a query with the query. *)
Lemma get_calib_data_bare_reply_witness :
  let s0 : session Q := new_session [] in
  get_calib_data float_of_digits acknowledging 0 s0
  = (Raise IndexError, set_sent (sent s0 ++ [wire (slope_query 0)]) s0).
Proof.
  intros s0.
  apply (get_calib_data_bare_reply float_of_digits acknowledging 0
           (wire (slope_query 0)) s0).
  - repeat split; vm_compute; reflexivity.
  - vm_compute. reflexivity.
Defined.

(** X6 on the same device: the lookup fails and the cache stays empty. *)
Lemma cached_calib_failure_caches_nothing_witness :
  let s0 : session Q := new_session [] in
  let run := cached_calib float_of_digits acknowledging 0 "SE" "BIP10V" s0 in
  fst run = Raise IndexError /\ calib_data (snd run) = calib_data s0.
Proof.
  intros s0 run.
  assert (H : run = (Raise IndexError, snd run)) by (vm_compute; reflexivity).
  split; [vm_compute; reflexivity|].
  exact (proj1 (cached_calib_failure_caches_nothing float_of_digits
                  acknowledging 0 "SE" "BIP10V" s0 (snd run) IndexError H)).
Defined.

(** X7 on the packet of the scenario. *)
Lemma read_scan_data_items_16bit_witness :
  Forall (fun v => 0 <= v < 65536) [10; 20; 30; 40].
Proof.
  apply (read_scan_data_items_16bit USB_7202 4 1000
           (new_session (F:=float) [UsbOk scenario_packet])
           (set_bulk_in [] (new_session [UsbOk scenario_packet]))).
  vm_compute. reflexivity.
Defined.

(** X8 on two packets of two items, four items asked for. *)
Lemma read_scan_data_completes_witness :
  let s0 : session float :=
    new_session [UsbOk [x0a; x00; x14; x00]; UsbOk [x1e; x00; x28; x00];
                 UsbOk [x01; x00]] in
  read_scan_data USB_7202 4 1000 s0
  = (Ok [10; 20; 30; 40], set_bulk_in [UsbOk [x01; x00]] s0).
Proof.
  intros s0.
  apply (read_scan_data_completes USB_7202 4 1000 s0
           [[x0a; x00; x14; x00]] [x1e; x00; x28; x00] [UsbOk [x01; x00]]).
  - discriminate.
  - repeat constructor; simpl; try lia; eexists; reflexivity.
  - reflexivity.
  - discriminate.
  - reflexivity.
Defined.

(** X9 on a packet of three bytes. *)
Lemma read_scan_data_odd_packet_witness :
  let s0 : session float := new_session [UsbOk [x0a; x00; x14]] in
  read_scan_data USB_7202 4 1000 s0 = (Raise ValueError, set_bulk_in [] s0).
Proof.
  intros s0.
  apply (read_scan_data_odd_packet USB_7202 4 1000 s0 [] [x0a; x00; x14] []).
  - discriminate.
  - constructor.
  - reflexivity.
  - reflexivity.
  - discriminate.
  - reflexivity.
Defined.

(** X10 on a stale packet followed by an error that is no time-out. *)
Lemma flush_input_data_discards_witness :
  let s0 : session float :=
    new_session [UsbOk scenario_packet; UsbErr (Some 32); UsbOk [x01; x00]] in
  flush_input_data USB_7202 s0 = (Ok tt, set_bulk_in [UsbOk [x01; x00]] s0).
Proof.
  intros s0.
  apply (proj1 (proj2 (flush_input_data_discards USB_7202 s0 [scenario_packet]
                         ltac:(repeat constructor; simpl; try lia;
                               eexists; reflexivity)))
           (UsbErr (Some 32)) [UsbOk [x01; x00]]).
  - left. exists (Some 32). reflexivity.
  - reflexivity.
Defined.

(** X11 for channel 2 and a buffer of four items. *)
Lemma split_channels_single_channel_witness :
  let s0 : session float := new_session [] in
  split_channels no_float USB_7202 [10; 20; 30; 40] 4 2 2 10 "SE" "BIP10V"
    false s0
  = (Ok (Single (IntArray [30; 40])), s0).
Proof.
  intros s0.
  apply (split_channels_single_channel no_float USB_7202 [10; 20; 30; 40]
           4 2 10 "SE" "BIP10V" s0).
  discriminate.
Defined.

(** X12 for the channels 0 to 2: channel 2 is not in the dict. *)
Lemma split_channels_many_channels_witness :
  let s0 : session float := new_session [] in
  exists d : gmap Z (ndarray float),
    split_channels no_float USB_7202 [1; 2; 3; 4; 5; 6] 6 0 2 10 "SE"
      "BIP10V" false s0 = (Ok (Multi d), s0) /\
    d !! 2 = None.
Proof.
  intros s0.
  destruct (split_channels_many_channels no_float USB_7202 [1; 2; 3; 4; 5; 6]
              6 0 2 10 "SE" "BIP10V" s0) as (d & Hd & _ & Hout);
    [lia | lia |].
  exists d. split; [exact Hd | apply Hout; lia].
Defined.

(** X13 on the silent endpoint: eleven attempts, and the counter back at 0. *)
Lemma simple_read_counter_witness :
  let s0 : session float := new_session [] in
  let run := simple_read no_float USB_7202 11 1000 4 0 1 10 "SE" false s0 in
  (read_recursion_depth (snd run) <= 10)%nat /\
  (forall v, fst run = Ok v -> read_recursion_depth (snd run) = 0%nat).
Proof.
  intros s0 run.
  apply (simple_read_counter no_float USB_7202 1000 4 0 1 10 "SE" false
           11 s0 (snd run) (fst run)).
  - simpl. lia.
  - subst run. now destruct (simple_read _ _ _ _ _ _ _ _ _ _ _).
Defined.

(** X14 on the silent endpoint: a stack for 11 calls and one for 50. *)
Lemma simple_read_recursion_bound_witness :
  let s0 : session float := new_session [] in
  simple_read no_float USB_7202 11 1000 4 0 1 10 "SE" false s0
  = simple_read no_float USB_7202 50 1000 4 0 1 10 "SE" false s0 /\
  fst (simple_read no_float USB_7202 11 1000 4 0 1 10 "SE" false s0)
  <> Raise RecursionLimit.
Proof.
  intros s0.
  apply (simple_read_recursion_bound no_float USB_7202 1000 4 0 1 10 "SE"
           false 11 50 s0); simpl; lia.
Defined.

(** X15 on an endpoint that is silent at first and delivers the four items
    of the scenario to the second attempt. *)
Lemma simple_read_retry_succeeds_witness :
  let s0 : session float :=
    new_session [UsbErr (Some ETIMEDOUT); UsbErr (Some ETIMEDOUT);
                 UsbOk scenario_packet] in
  let s1 := snd (attempt USB_7202 1000 4 0 1 10 "SE"
                   (after_retries USB_7202 1000 4 0 1 10 "SE" 1 s0)) in
  simple_read no_float USB_7202 11 1000 4 0 1 10 "SE" false s0
  = split_channels no_float USB_7202 [10; 20; 30; 40] 4 0 1 10 "SE"
      ("BIP" +:+ fmt_d 10 +:+ "V") false (set_read_recursion_depth 0 s1) /\
  scan_starts (sent s1) = (scan_starts (sent s0) + 2)%nat.
Proof.
  intros s0 s1.
  apply (simple_read_retry_succeeds no_float USB_7202 1000 4 0 1 10 "SE"
           false 1 11 s0 s1 [10; 20; 30; 40]).
  - simpl. lia.
  - lia.
  - intros i Hi. assert (i = 0%nat) as -> by lia.
    exists [], (snd (attempt USB_7202 1000 4 0 1 10 "SE" s0)).
    split; [vm_compute; reflexivity | discriminate].
  - vm_compute. reflexivity.
  - reflexivity.
Defined.

(** X16 for the modes [se] and [SE]. *)
Lemma configure_read_mode_case_witness :
  let s0 : session float := new_session [] in
  let s1 := snd (configure_read USB_7202 1000 4 0 1 10 "se" s0) in
  let commands := wire <$> config_messages 1000 4 0 1 10 "se" in
  wire <$> config_messages 1000 4 0 1 10 "SE" = commands /\
  configure_read USB_7202 1000 4 0 1 10 "SE" s1
  = (Ok tt,
     set_conf (Some ("SE"%string, 10, 0, 1, 1000, 4))
       (set_sent (sent s1 ++ commands) s1)).
Proof.
  intros s0 s1 commands.
  apply (configure_read_mode_case USB_7202 1000 4 0 1 10 "se" "SE" s0 s1).
  - discriminate.
  - reflexivity.
  - vm_compute. reflexivity.
  - subst s1 s0. bench_accepts.
Defined.

(** X17 on the class [USB_1608G] and an image of 100 bytes. *)
Lemma configure_fpga_uploads_witness :
  let s0 : session float := new_session [] in
  let rbf := replicate 100 x55 in
  configure_fpga USB_1608G fw_accepting (Some rbf) s0
  = (Ok tt,
     set_sent (sent s0 ++ [wire "?DEV:FPGACFG"; wire "DEV:FPGACFG=0xAD";
                           wire "?DEV:FPGACFG"]) s0,
     fpga_chunks rbf).
Proof.
  intros s0 rbf.
  apply (configure_fpga_uploads USB_1608G fw_accepting rbf s0
           "DEV:FPGACFG=CONFIGMODE" (wire "DEV:FPGACFG=0xAD")
           "DEV:FPGACFG=CONFIGURED").
  - repeat split; vm_compute; reflexivity.
  - reflexivity.
  - repeat split; vm_compute; reflexivity.
  - intros uploaded msg. eexists. reflexivity.
  - repeat split; vm_compute; reflexivity.
  - reflexivity.
Defined.

(** X18 on the same run. *)
Lemma configure_fpga_Ok_configured_witness :
  let s0 : session float := new_session [] in
  let run := configure_fpga USB_1608G fw_accepting (Some (replicate 100 x55))
               s0 in
  exists hist reply,
    sent (snd (fst run)) = hist ++ [wire "?DEV:FPGACFG"] /\
    accepted USB_1608G hist "?DEV:FPGACFG" reply /\
    rstrip_nul reply = "DEV:FPGACFG=CONFIGURED"%string.
Proof.
  intros s0 run.
  apply (configure_fpga_Ok_configured USB_1608G fw_accepting
           (Some (replicate 100 x55)) s0 (snd (fst run)) (snd run)).
  vm_compute. reflexivity.
Defined.

(** X20 on the class [USB_7202] and the range -10 V .. 10 V. *)
Lemma scale_and_calibrate_data_endpoints_witness :
  scale_and_calibrate_data USB_7202 0%float (-10)%float 10%float
    (1%float, 0%float) = (-10)%float /\
  scale_and_calibrate_data USB_7202 65535%float (-10)%float 10%float
    (1%float, 0%float) = 10%float.
Proof.
  apply (scale_and_calibrate_data_endpoints USB_7202 10).
  - right. right. reflexivity.
  - lia.
Defined.

(** X21 on the class [USB_7202] and the range -10 V .. 10 V: the raw count
    1000 lies within the range. *)
Lemma scale_and_calibrate_data_monotone_witness :
  PrimFloat.leb (-10)%float
    (scale_and_calibrate_data USB_7202 1000%float (-10)%float 10%float
       (1%float, 0%float)) = true /\
  PrimFloat.leb
    (scale_and_calibrate_data USB_7202 1000%float (-10)%float 10%float
       (1%float, 0%float)) 10%float = true.
Proof.
  pose proof (scale_and_calibrate_data_monotone USB_7202 10 1000
                (or_intror (or_intror eq_refl)) ltac:(lia) ltac:(simpl; lia))
    as [H1 [H2 _]].
  split; [exact H1 | exact H2].
Defined.

(** X22 for 2500 Hz: three packets of 64 bytes. *)
Lemma continuous_packet_size_default_witness :
  continuous_packet_size 2500 None = 192 /\
  64 <= continuous_packet_size 2500 None.
Proof.
  split; [reflexivity|].
  apply (continuous_packet_size_default 2500 ltac:(discriminate)).
Defined.
